(** * CSV-to-ICS converter: a shallow embedding of [main.py]

    The development follows the source file top-down: the Python values and
    exceptions the script manipulates, the text helpers ([str.strip],
    [str.lower]), the slice of [datetime] it relies on, then [parse_date],
    [format_ics_date], [generate_event_block], [generate_ics_structure] and
    [process_csv].

    Modelling conventions.
    - A Python [str] is a Rocq [string] whose characters are read as the
      first 256 Unicode code points (Latin-1).
    - A raised exception is the [Raise] constructor of [result]; a
      [try/except] is a [match] on it.
    - [uuid.uuid4()] and [datetime.now()] read an environment ([env]) through
      a counter of calls ([world]), threaded by a small state-and-exception
      monad.
    - The text layer and the [csv] module are represented by what
      [csv.reader] hands over: a sequence of records, each of which is either
      a list of fields or the exception raised while fetching it. *)

From Stdlib Require Import ZArith String Ascii List Lia Bool.
From stdpp Require Import base option list strings gmap.

Local Open Scope string_scope.
Local Open Scope list_scope.
Local Open Scope Z_scope.

(** ** Exceptions and results *)

Inductive exn : Type :=
| ValueError
| OverflowError
| AttributeError
| UnicodeDecodeError
| StopIteration
| FileNotFoundError
| TypeError
| CsvError.

Inductive result (A : Type) : Type :=
| Ok (a : A)
| Raise (e : exn).

Arguments Ok {A} a.
Arguments Raise {A} e.

(** ** Text helpers *)

Module Text.

Definition code (c : ascii) : Z := Z.of_N (N_of_ascii c).

Definition chr (n : Z) : ascii := ascii_of_N (Z.to_N n).

(** [str.isspace] on one character, for the code points below 256. *)
Definition isspace (c : ascii) : bool :=
  let n := code c in
  ((9 <=? n) && (n <=? 13)) || ((28 <=? n) && (n <=? 32))
  || (n =? 133) || (n =? 160).

(** [str.lower] on one character, for the code points below 256. *)
Definition lower_char (c : ascii) : ascii :=
  let n := code c in
  if ((65 <=? n) && (n <=? 90))
     || ((192 <=? n) && (n <=? 222) && negb (n =? 215))
  then chr (n + 32) else c.

Fixpoint lower (s : string) : string :=
  match s with
  | EmptyString => EmptyString
  | String c s' => String (lower_char c) (lower s')
  end.

Fixpoint lstrip (s : string) : string :=
  match s with
  | EmptyString => EmptyString
  | String c s' => if isspace c then lstrip s' else s
  end.

Fixpoint rstrip (s : string) : string :=
  match s with
  | EmptyString => EmptyString
  | String c s' =>
      match rstrip s' with
      | EmptyString => if isspace c then EmptyString else String c EmptyString
      | r => String c r
      end
  end.

Definition strip (s : string) : string := rstrip (lstrip s).

Definition CR : ascii := chr 13.
Definition LF : ascii := chr 10.
Definition CRLF : string := String CR (String LF EmptyString).

(** [sep.join(parts)] *)
Fixpoint join (sep : string) (parts : list string) : string :=
  match parts with
  | [] => EmptyString
  | [p] => p
  | p :: rest => p +:+ sep +:+ join sep rest
  end.

(** Number of occurrences of a character. *)
Fixpoint count_char (c : ascii) (s : string) : nat :=
  match s with
  | EmptyString => O
  | String d s' => (if Ascii.eqb c d then 1 else 0)%nat + count_char c s'
  end.

Definition digit_char (d : Z) : ascii := chr (48 + d mod 10).

(** Decimal rendering on exactly two, respectively four, digits. *)
Definition pad2 (n : Z) : string :=
  String (digit_char (n / 10)) (String (digit_char n) EmptyString).

Definition pad4 (n : Z) : string :=
  String (digit_char (n / 1000)) (String (digit_char (n / 100))
    (String (digit_char (n / 10)) (String (digit_char n) EmptyString))).

(** [text.encode('utf-8')] for the code points below 256. *)
Definition byte_of (n : Z) : Byte.byte := byte_of_ascii (chr n).

Fixpoint encode_utf8 (s : string) : list Byte.byte :=
  match s with
  | EmptyString => []
  | String c s' =>
      let n := code c in
      if n <? 128 then byte_of n :: encode_utf8 s'
      else byte_of (192 + n / 64) :: byte_of (128 + n mod 64)
           :: encode_utf8 s'
  end.

End Text.

(** ** The slice of [datetime] used by the script *)

Module Datetime.

Record datetime : Type := mkDatetime {
  year : Z; month : Z; day : Z;
  hour : Z; minute : Z; second : Z; microsecond : Z
}.

Record timedelta : Type := mkTimedelta {
  td_days : Z; td_seconds : Z; td_microseconds : Z
}.

Definition MINYEAR : Z := 1.
Definition MAXYEAR : Z := 9999.
Definition MAXORDINAL : Z := 3652059.

Definition is_leap (y : Z) : bool :=
  (y mod 4 =? 0) && (negb (y mod 100 =? 0) || (y mod 400 =? 0)).

Definition days_in_month (y m : Z) : Z :=
  if m =? 2 then (if is_leap y then 29 else 28)
  else if (m =? 4) || (m =? 6) || (m =? 9) || (m =? 11) then 30
  else 31.

Definition days_before_month (y m : Z) : Z :=
  let base :=
    match m with
    | 1 => 0 | 2 => 31 | 3 => 59 | 4 => 90 | 5 => 120 | 6 => 151
    | 7 => 181 | 8 => 212 | 9 => 243 | 10 => 273 | 11 => 304 | _ => 334
    end in
  if (2 <? m) && is_leap y then base + 1 else base.

Definition days_before_year (y : Z) : Z :=
  let p := y - 1 in p * 365 + p / 4 - p / 100 + p / 400.

Definition ymd_to_ord (y m d : Z) : Z :=
  days_before_year y + days_before_month y m + d.

Definition DI4Y : Z := 1461.
Definition DI100Y : Z := 36524.
Definition DI400Y : Z := 146097.

Definition ord_to_ymd (ordinal : Z) : Z * Z * Z :=
  let n := ordinal - 1 in
  let n400 := n / DI400Y in
  let n := n mod DI400Y in
  let n100 := n / DI100Y in
  let n := n mod DI100Y in
  let n4 := n / DI4Y in
  let n := n mod DI4Y in
  let n1 := n / 365 in
  let n := n mod 365 in
  let y := n400 * 400 + 1 + n100 * 100 + n4 * 4 + n1 in
  if (n1 =? 4) || (n100 =? 4) then (y - 1, 12, 31)
  else
    let leapyear := (n1 =? 3) && (negb (n4 =? 24) || (n100 =? 3)) in
    let m := Z.shiftr (n + 50) 5 in
    let preceding :=
      days_before_month 1 m + (if (2 <? m) && leapyear then 1 else 0) in
    if n <? preceding then
      let m' := m - 1 in
      let preceding' :=
        preceding - (days_in_month 1 m'
                     + (if (m' =? 2) && leapyear then 1 else 0)) in
      (y, m', n - preceding' + 1)
    else (y, m, n - preceding + 1).

(** The constructor [datetime(year, month, day, hour, minute, second,
    microsecond)], which rejects fields out of range with [ValueError]. *)
Definition check_date_fields (y m d : Z) : bool :=
  (MINYEAR <=? y) && (y <=? MAXYEAR) && (1 <=? m) && (m <=? 12)
  && (1 <=? d) && (d <=? days_in_month y m).

Definition check_time_fields (h mi s us : Z) : bool :=
  (0 <=? h) && (h <=? 23) && (0 <=? mi) && (mi <=? 59)
  && (0 <=? s) && (s <=? 59) && (0 <=? us) && (us <=? 999999).

Definition new (y m d h mi s us : Z) : result datetime :=
  if check_date_fields y m d && check_time_fields h mi s us
  then Ok (mkDatetime y m d h mi s us)
  else Raise ValueError.

(** [dt.replace(hour=h, minute=mi, second=s)] *)
Definition replace_hms (dt : datetime) (h mi s : Z) : result datetime :=
  new (year dt) (month dt) (day dt) h mi s (microsecond dt).

(** [timedelta(minutes=m)], normalised as the constructor does. *)
Definition timedelta_minutes (m : Z) : timedelta :=
  mkTimedelta ((m * 60) / 86400) ((m * 60) mod 86400) 0.

(** Carry of the low field into the high one. *)
Definition normalize_pair (hi lo factor : Z) : Z * Z :=
  if (lo <? 0) || (factor <=? lo) then (hi + lo / factor, lo mod factor)
  else (hi, lo).

Definition normalize_y_m_d (y m d : Z) : result (Z * Z * Z) :=
  let dim := days_in_month y m in
  let in_range r :=
    let '(y', _, _) := r in
    if (MINYEAR <=? y') && (y' <=? MAXYEAR) then Ok r
    else Raise OverflowError in
  if (d <? 1) || (dim <? d) then
    if d =? 0 then
      if 0 <? m - 1 then in_range (y, m - 1, days_in_month y (m - 1))
      else in_range (y - 1, 12, 31)
    else if d =? dim + 1 then
      if 12 <? m + 1 then in_range (y + 1, 1, 1)
      else in_range (y, m + 1, 1)
    else
      let ordinal := ymd_to_ord y m 1 + d - 1 in
      if (ordinal <? 1) || (MAXORDINAL <? ordinal) then Raise OverflowError
      else Ok (ord_to_ymd ordinal)
  else in_range (y, m, d).

(** [dt + delta] *)
Definition add (dt : datetime) (delta : timedelta) : result datetime :=
  let d0 := day dt + td_days delta in
  let s0 := second dt + td_seconds delta in
  let us0 := microsecond dt + td_microseconds delta in
  let '(s1, us1) := normalize_pair s0 us0 1000000 in
  let '(mi1, s2) := normalize_pair (minute dt) s1 60 in
  let '(h1, mi2) := normalize_pair (hour dt) mi1 60 in
  let '(d1, h2) := normalize_pair d0 h1 24 in
  match normalize_y_m_d (year dt) (month dt) d1 with
  | Ok (y, m, d) => Ok (mkDatetime y m d h2 mi2 s2 us1)
  | Raise e => Raise e
  end.


Definition well_formed (dt : datetime) : Prop :=
  check_date_fields (year dt) (month dt) (day dt) = true
  /\ check_time_fields (hour dt) (minute dt) (second dt) (microsecond dt)
     = true.

End Datetime.

Import Datetime.

(** ** [datetime.strptime] for the directives the script uses

    [strptime] turns the format into a regular expression, matches it at the
    start of the text with the usual backtracking search, and rejects text
    left over after the match.  The expression of a directive is a list of
    alternatives tried from left to right; [candidates] lists, in that order,
    every way an item can consume a prefix of the text, so that the head of
    [matches] is the match the search finds first. *)

Module Strptime.

Inductive item : Type :=
| Lit (c : ascii)
| Day      (* %d : 3[0-1]|[1-2]\d|0[1-9]|[1-9]| [1-9] *)
| Month    (* %m : 1[0-2]|0[1-9]|[1-9] *)
| Year.    (* %Y : \d\d\d\d *)

Record found : Type := mkFound {
  f_year : option Z; f_month : option Z; f_day : option Z
}.

Definition nothing : found := mkFound None None None.

(** Format string to items; [None] stands for a directive outside the
    three modelled here.  The formats of the script hold each directive once
    and no whitespace, which is what the items cover. *)
Fixpoint compile (fmt : string) : option (list item) :=
  match fmt with
  | EmptyString => Some []
  | String c rest =>
      if Ascii.eqb c "%" then
        match rest with
        | EmptyString => None
        | String k rest' =>
            let it :=
              if Ascii.eqb k "d" then Some Day
              else if Ascii.eqb k "m" then Some Month
              else if Ascii.eqb k "Y" then Some Year
              else if Ascii.eqb k "%" then Some (Lit "%")
              else None in
            match it, compile rest' with
            | Some i, Some p => Some (i :: p)
            | _, _ => None
            end
        end
      else
        match compile rest with
        | Some p => Some (Lit c :: p)
        | None => None
        end
  end.

Definition between (lo hi : ascii) (c : ascii) : bool :=
  (Text.code lo <=? Text.code c) && (Text.code c <=? Text.code hi).

Definition dval (c : ascii) : Z := Text.code c - 48.

(** One alternative made of two character classes, read as a number. *)
Definition two (p1 p2 : ascii -> bool) (s : string) : list (Z * string) :=
  match s with
  | String c1 (String c2 r) =>
      if p1 c1 && p2 c2 then [(10 * dval c1 + dval c2, r)] else []
  | _ => []
  end.

(** One alternative made of one character class. *)
Definition one (p : ascii -> bool) (s : string) : list (Z * string) :=
  match s with
  | String c r => if p c then [(dval c, r)] else []
  | _ => []
  end.

(** A space followed by a digit from 1 to 9: [int] ignores the space. *)
Definition spaced (s : string) : list (Z * string) :=
  match s with
  | String c1 (String c2 r) =>
      if Ascii.eqb c1 " " && between "1" "9" c2 then [(dval c2, r)] else []
  | _ => []
  end.

Definition re_d (s : string) : list (Z * string) :=
  two (Ascii.eqb "3") (between "0" "1") s
  ++ two (between "1" "2") (between "0" "9") s
  ++ two (Ascii.eqb "0") (between "1" "9") s
  ++ one (between "1" "9") s
  ++ spaced s.

Definition re_m (s : string) : list (Z * string) :=
  two (Ascii.eqb "1") (between "0" "2") s
  ++ two (Ascii.eqb "0") (between "1" "9") s
  ++ one (between "1" "9") s.

Definition re_Y (s : string) : list (Z * string) :=
  match s with
  | String c1 (String c2 (String c3 (String c4 r))) =>
      if between "0" "9" c1 && between "0" "9" c2
         && between "0" "9" c3 && between "0" "9" c4
      then [(1000 * dval c1 + 100 * dval c2 + 10 * dval c3 + dval c4, r)]
      else []
  | _ => []
  end.

(** The ways one item consumes a prefix, in search order.  Literals are
    compared without regard to case, as the expression is compiled. *)
Definition candidates (i : item) (acc : found) (s : string)
  : list (found * string) :=
  match i with
  | Lit c =>
      match s with
      | String c' r =>
          if Ascii.eqb (Text.lower_char c) (Text.lower_char c')
          then [(acc, r)] else []
      | EmptyString => []
      end
  | Day =>
      map (fun '(v, r) => (mkFound (f_year acc) (f_month acc) (Some v), r))
          (re_d s)
  | Month =>
      map (fun '(v, r) => (mkFound (f_year acc) (Some v) (f_day acc), r))
          (re_m s)
  | Year =>
      map (fun '(v, r) => (mkFound (Some v) (f_month acc) (f_day acc), r))
          (re_Y s)
  end.

Fixpoint matches (p : list item) (acc : found) (s : string)
  : list (found * string) :=
  match p with
  | [] => [(acc, s)]
  | i :: p' =>
      flat_map (fun '(acc', r) => matches p' acc' r) (candidates i acc s)
  end.

(** [datetime.strptime(data_string, format)]: no match, text left over
    and a date that does not exist all raise [ValueError]. *)
Definition strptime (data_string format : string) : result datetime :=
  match compile format with
  | None => Raise ValueError
  | Some p =>
      match matches p nothing data_string with
      | [] => Raise ValueError
      | (f, rest) :: _ =>
          match rest with
          | String _ _ => Raise ValueError
          | EmptyString =>
              Datetime.new (default 1900 (f_year f))
                           (default 1 (f_month f))
                           (default 1 (f_day f)) 0 0 0 0
          end
      end
  end.

End Strptime.

(** ** [parse_date] and [format_ics_date] *)

(** The loop over the two formats: the first format that parses wins, a
    [ValueError] moves on to the next one, any other exception would
    propagate, and [None] is returned when the formats are exhausted. *)
Fixpoint parse_date_loop (date_str : string) (fmts : list string)
  : result (option datetime) :=
  match fmts with
  | [] => Ok None
  | fmt :: rest =>
      match Strptime.strptime date_str fmt with
      | Ok dt => Ok (Some dt)
      | Raise ValueError => parse_date_loop date_str rest
      | Raise e => Raise e
      end
  end.

Definition parse_date (date_str : string) : result (option datetime) :=
  parse_date_loop date_str ["%d/%m/%Y"; "%Y-%m-%d"].

(** [dt.strftime('%Y%m%d')] and [dt.strftime('%H%M%S')].  The year is
    rendered on four digits.  From the year 1000 on every platform writes
    it so; below, the C library decides (glibc leaves the year unpadded,
    others pad it), and the properties of the stamp are stated from the
    year 1000 on. *)
Definition strftime_Ymd (dt : datetime) : string :=
  Text.pad4 (year dt) +:+ Text.pad2 (month dt) +:+ Text.pad2 (day dt).

Definition strftime_HMS (dt : datetime) : string :=
  Text.pad2 (hour dt) +:+ Text.pad2 (minute dt) +:+ Text.pad2 (second dt).

Definition format_ics_date (dt : datetime) : string :=
  strftime_Ymd dt +:+ "T" +:+ strftime_HMS dt.

(** ** The environment and the state of a run

    The environment fixes what lies outside the script: the identifiers
    [uuid.uuid4()] returns, the readings of the clock, and what [csv.reader]
    yields over the bytes of a file opened with a given encoding and
    delimiter.  The state of a run counts the calls made so far and holds
    the log and the file system. *)

Inductive encoding : Type := Utf8 | Cp1252.

(** One step of [csv.reader]: the fields of a record, or the exception
    raised while fetching it ([UnicodeDecodeError] from the text layer,
    [CsvError] from the parser). *)
Inductive record : Type :=
| Fields (row : list string)
| Broken (e : exn).

Definition bytes : Type := list Byte.byte.

Record env : Type := mkEnv {
  uuid_at : nat -> string;     (* text of the n-th identifier drawn *)
  clock_at : nat -> datetime;  (* reading of the n-th look at the clock *)
  csv_records : encoding -> string -> bytes -> list record
}.

(** Python values found in the dictionaries [csv.DictReader] builds. *)
Inductive pyval : Type :=
| VStr (s : string)
| VNone
| VList (l : list string).

(** A dictionary in insertion order; the key [None] is the reader's
    [restkey]. *)
Definition pydict : Type := list (option string * pyval).

Inductive log_entry : Type :=
| Warning_default_subject (default_subject : string)
| Warning_no_date (row : pydict)
| Error_invalid_date (date_str : string)
| Info_success (processed_count : nat) (output_file : string)
| Critical_not_found (input_file : string)
| Critical_error (e : exn).

Record world : Type := mkWorld {
  uuid_calls : nat;
  now_calls : nat;
  log : list log_entry;
  fs : gmap string bytes
}.

(** State that survives an exception, and a result that may be one. *)
Definition M (A : Type) : Type := world -> result A * world.

Definition ret {A} (a : A) : M A := fun w => (Ok a, w).

Definition bind {A B} (m : M A) (k : A -> M B) : M B :=
  fun w => match m w with
           | (Ok a, w') => k a w'
           | (Raise e, w') => (Raise e, w')
           end.

Definition lift {A} (r : result A) : M A := fun w => (r, w).

Notation "'let*' x ':=' m 'in' k" := (bind m (fun x => k))
  (at level 10, x pattern, m at level 100, k at level 200).

Definition uuid4 (E : env) : M string :=
  fun w => (Ok (uuid_at E (uuid_calls w)),
            mkWorld (S (uuid_calls w)) (now_calls w) (log w) (fs w)).

Definition datetime_now (E : env) : M datetime :=
  fun w => (Ok (clock_at E (now_calls w)),
            mkWorld (uuid_calls w) (S (now_calls w)) (log w) (fs w)).

Definition logging (entry : log_entry) : M unit :=
  fun w => (Ok tt,
            mkWorld (uuid_calls w) (now_calls w) (log w ++ [entry]) (fs w)).

(** ** [generate_event_block] *)

(** The fourteen lines of an event, once the identifier, the stamp and the
    two instants are known. *)
Definition event_lines (subject uid : string) (stamp start_event end_event : datetime)
  : list string :=
  [ "BEGIN:VEVENT";
    "UID:" +:+ uid;
    "DTSTAMP:" +:+ format_ics_date stamp;
    "DTSTART;TZID=America/Sao_Paulo:" +:+ format_ics_date start_event;
    "DTEND;TZID=America/Sao_Paulo:" +:+ format_ics_date end_event;
    "SUMMARY:" +:+ subject;
    "STATUS:CONFIRMED";
    "CLASS:PUBLIC";
    "BEGIN:VALARM";
    "ACTION:DISPLAY";
    "TRIGGER;RELATED=START:-PT15M";
    "DESCRIPTION:Lembrete gerado via script CSV";
    "END:VALARM";
    "END:VEVENT" ].

Definition start_event_of (start_date : datetime) : result datetime :=
  Datetime.replace_hms start_date 9 0 0.

Definition end_event_of (start_event : datetime) : result datetime :=
  Datetime.add start_event (Datetime.timedelta_minutes 30).

Definition generate_event_block (E : env) (subject : string)
  (start_date : datetime) : M (list string) :=
  let* start_event := lift (start_event_of start_date) in
  let* end_event := lift (end_event_of start_event) in
  let* uid := uuid4 E in
  let* stamp := datetime_now E in
  ret (event_lines subject uid stamp start_event end_event).

(** ** [generate_ics_structure] *)

Definition calendar_header : list string :=
  [ "BEGIN:VCALENDAR";
    "PRODID:-//CSV-to-ICS//Github//PT-BR";
    "VERSION:2.0";
    "METHOD:PUBLISH";
    "X-WR-CALNAME:Eventos Importados" ].

Definition timezone_block : list string :=
  [ "BEGIN:VTIMEZONE";
    "TZID:America/Sao_Paulo";
    "BEGIN:STANDARD";
    "DTSTART:16010101T000000";
    "TZOFFSETTO:-0300";
    "TZOFFSETFROM:-0300";
    "TZNAME:-03";
    "END:STANDARD";
    "END:VTIMEZONE" ].

Definition header : list string := calendar_header ++ timezone_block.

Definition generate_ics_structure (events_content : list string) : list string :=
  header ++ events_content ++ ["END:VCALENDAR"].

(** ** [csv.DictReader] *)

(** [d[k] = v]: an existing key keeps its place. *)
Fixpoint dict_set (d : pydict) (k : option string) (v : pyval) : pydict :=
  match d with
  | [] => [(k, v)]
  | (k', v') :: rest =>
      if decide (k' = k) then (k, v) :: rest else (k', v') :: dict_set rest k v
  end.

(** The dictionary of one record: fields under their column names, fields
    beyond the header as a list under [None], and [None] as the value of
    the columns the record is too short to fill. *)
Definition dict_row (fieldnames row : list string) : pydict :=
  let d := fold_left (fun d '(k, v) => dict_set d (Some k) (VStr v))
                     (combine fieldnames row) [] in
  let lf := length fieldnames in
  let lr := length row in
  if (lf <? lr)%nat then dict_set d None (VList (skipn lf row))
  else if (lr <? lf)%nat then
    fold_left (fun d k => dict_set d (Some k) VNone) (skipn lr fieldnames) d
  else d.

(** [next(reader)] past the header: blank records are skipped. *)
Fixpoint next_row (fieldnames : list string) (records : list record)
  : result (pydict * list record) :=
  match records with
  | [] => Raise StopIteration
  | Broken e :: _ => Raise e
  | Fields [] :: rest => next_row fieldnames rest
  | Fields row :: rest => Ok (dict_row fieldnames row, rest)
  end.

(** [next(reader)] on a fresh reader: the header is fetched first. *)
Definition first_row (records : list record) : result (pydict * list record) :=
  match records with
  | [] => Raise StopIteration
  | Broken e :: _ => Raise e
  | Fields fieldnames :: rest => next_row fieldnames rest
  end.

(** ** [process_csv] *)

Definition truthy (o : option string) : bool :=
  match o with
  | Some (String _ _) => true
  | _ => false
  end.

(** [{k.strip().lower(): v.strip() for k, v in row.items() if k}] *)
Fixpoint row_clean_from (items : pydict) (acc : gmap string string)
  : result (gmap string string) :=
  match items with
  | [] => Ok acc
  | (k, v) :: rest =>
      if truthy k then
        match k, v with
        | Some name, VStr s =>
            row_clean_from rest
              (<[Text.lower (Text.strip name) := Text.strip s]> acc)
        | _, _ => Raise AttributeError
        end
      else row_clean_from rest acc
  end.

Definition row_clean_of (row : pydict) : result (gmap string string) :=
  row_clean_from row ∅.

(** The two local accumulators of the loop. *)
Record progress : Type := mkProgress {
  ics_events : list string;
  processed_count : nat
}.

Section Run.

Variable E : env.
Variables input_file output_file delimiter : string.
Variables col_subject col_date default_subject : string.

Definition target_col_subj : string := Text.lower col_subject.
Definition target_col_date : string := Text.lower col_date.

(** The body of the loop, lines 90 to 116. *)
Definition process_row (row : pydict) (p : progress) : M progress :=
  let* row_clean := lift (row_clean_of row) in
  let* subject_value :=
    (match row_clean !! target_col_subj with
     | Some (String c s) => ret (String c s)
     | _ =>
         let* _ := logging (Warning_default_subject default_subject) in
         ret default_subject
     end) in
  match row_clean !! target_col_date with
  | Some (String c s) =>
      let date_str := String c s in
      let* dt_event := lift (parse_date date_str) in
      match dt_event with
      | None =>
          let* _ := logging (Error_invalid_date date_str) in
          ret p
      | Some dt =>
          let* block := generate_event_block E subject_value dt in
          ret (mkProgress (ics_events p ++ block) (S (processed_count p)))
      end
  | _ =>
      let* _ := logging (Warning_no_date row) in
      ret p
  end.

(** [for row in reader], once the header is known: the end of the
    records ends the loop, a record that cannot be fetched raises. *)
Fixpoint process_rows (fieldnames : list string) (records : list record)
  (p : progress) : M progress :=
  match records with
  | [] => ret p
  | Broken e :: _ => lift (Raise e)
  | Fields [] :: rest => process_rows fieldnames rest p
  | Fields row :: rest =>
      let* p' := process_row (dict_row fieldnames row) p in
      process_rows fieldnames rest p'
  end.

(** [open(input_file, newline='', encoding=...)] followed by
    [csv.DictReader(file_obj, delimiter=delimiter)]. *)
Definition open_reader (enc : encoding) : M (list record) :=
  fun w =>
    match fs w !! input_file with
    | None => (Raise FileNotFoundError, w)
    | Some content =>
        if (String.length delimiter =? 1)%nat
        then (Ok (csv_records E enc delimiter content), w)
        else (Raise TypeError, w)
    end.

(** Lines 74 to 81: the reader over UTF-8 is tried on its first row and
    rewound; a [UnicodeDecodeError] in that attempt switches to cp1252,
    any other exception propagates. *)
Definition open_with_fallback : M (list record) :=
  fun w =>
    match open_reader Utf8 w with
    | (Ok records, w') =>
        match first_row records with
        | Ok _ => (Ok records, w')
        | Raise UnicodeDecodeError => open_reader Cp1252 w'
        | Raise e => (Raise e, w')
        end
    | (Raise UnicodeDecodeError, w') => open_reader Cp1252 w'
    | (Raise e, w') => (Raise e, w')
    end.

(** Lines 83 to 116: the header, then the rows. *)
Definition read_events (records : list record) : M progress :=
  match records with
  | [] => ret (mkProgress [] 0)
  | Broken e :: _ => lift (Raise e)
  | Fields names :: rest =>
      let fieldnames := map (fun f => Text.lower (Text.strip f)) names in
      process_rows names rest (mkProgress [] 0)
  end.

(** [open(output_file, 'w', encoding='utf-8', newline='')] and the single
    [f.write]. *)
Definition write_output (text : string) : M unit :=
  fun w => (Ok tt,
            mkWorld (uuid_calls w) (now_calls w) (log w)
                    (<[output_file := Text.encode_utf8 text]> (fs w))).

(** The body of the outer [try]. *)
Definition process_csv_try : M unit :=
  let* records := open_with_fallback in
  let* p := read_events records in
  let full_content := generate_ics_structure (ics_events p) in
  let* _ := write_output (Text.join Text.CRLF full_content) in
  logging (Info_success (processed_count p) output_file).

(** The whole function: the two [except] clauses turn every exception
    into a critical log line. *)
Definition process_csv : world -> world :=
  fun w =>
    match process_csv_try w with
    | (Ok _, w') => w'
    | (Raise FileNotFoundError, w') =>
        snd (logging (Critical_not_found input_file) w')
    | (Raise e, w') => snd (logging (Critical_error e) w')
    end.

End Run.

(** ** Vocabulary of the statements

    The definitions below are not part of the script; they name what the
    properties speak about. *)

(** The instant [dt] moved to the given hour and minute of its day. *)
Definition at_time (dt : datetime) (h mi : Z) : datetime :=
  mkDatetime (year dt) (month dt) (day dt) h mi 0 (microsecond dt).

(** An event entry: what distinguishes one block from another. *)
Record entry : Type := mkEntry {
  e_subject : string; e_uid : string; e_stamp : datetime; e_date : datetime
}.

Definition entry_lines (en : entry) : list string :=
  event_lines (e_subject en) (e_uid en) (e_stamp en)
              (at_time (e_date en) 9 0) (at_time (e_date en) 9 30).

(** The terminal outcomes of a row. *)
Inductive outcome : Type :=
| ACCEPTED (subject : string) (dt : datetime)
| SKIPPED_NO_DATE
| SKIPPED_INVALID_DATE.

(** The decision [process_row] takes, without its effects. *)
Definition row_outcome (target_subj target_date default_subject : string)
  (row : pydict) : result outcome :=
  match row_clean_of row with
  | Raise e => Raise e
  | Ok row_clean =>
      let subject_value :=
        match row_clean !! target_subj with
        | Some (String c s) => String c s
        | _ => default_subject
        end in
      match row_clean !! target_date with
      | Some (String c s) =>
          match parse_date (String c s) with
          | Raise e => Raise e
          | Ok None => Ok SKIPPED_INVALID_DATE
          | Ok (Some dt) => Ok (ACCEPTED subject_value dt)
          end
      | _ => Ok SKIPPED_NO_DATE
      end
  end.

(** The accepted rows of a sequence of records, in order, or the first
    exception met on the way. *)
Fixpoint accepted_rows (target_subj target_date default_subject : string)
  (fieldnames : list string) (records : list record)
  : result (list (string * datetime)) :=
  match records with
  | [] => Ok []
  | Broken e :: _ => Raise e
  | Fields [] :: rest =>
      accepted_rows target_subj target_date default_subject fieldnames rest
  | Fields row :: rest =>
      match row_outcome target_subj target_date default_subject
                        (dict_row fieldnames row) with
      | Raise e => Raise e
      | Ok (ACCEPTED subject dt) =>
          match accepted_rows target_subj target_date default_subject
                              fieldnames rest with
          | Ok l => Ok ((subject, dt) :: l)
          | Raise e => Raise e
          end
      | Ok _ =>
          accepted_rows target_subj target_date default_subject fieldnames rest
      end
  end.

(** Accepted rows paired with the identifiers and clock readings they
    receive when the counters stand at [nu] and [nn]. *)
Fixpoint number (E : env) (nu nn : nat) (l : list (string * datetime))
  : list entry :=
  match l with
  | [] => []
  | (subject, dt) :: rest =>
      mkEntry subject (uuid_at E nu) (clock_at E nn) dt
      :: number E (S nu) (S nn) rest
  end.

(** Events a row adds: one when it is accepted. *)
Definition accepted_count (r : result outcome) : nat :=
  match r with
  | Ok (ACCEPTED _ _) => 1
  | _ => 0
  end.

(** A pair of a row dictionary that cleaning accepts: the key is [None], or
    the value is text. *)
Definition stringly (kv : option string * pyval) : Prop :=
  match kv with
  | (None, _) => True
  | (Some _, VStr _) => True
  | (Some _, _) => False
  end.

(** The step [dict_row] folds over the pairs of a record. *)
Definition set_field (d : pydict) (kv : string * string) : pydict :=
  let '(k, v) := kv in dict_set d (Some k) (VStr v).

(** Column-name normalisation applied to the keys of a row. *)
Definition normalize (name : string) : string := Text.lower (Text.strip name).

(** Lines a reader sees in a text: one more than its line feeds. *)
Definition physical_lines (text : string) : nat :=
  S (Text.count_char Text.LF text).

(** How many of the lines are exactly the given one. *)
Fixpoint count_line (line : string) (lines : list string) : nat :=
  match lines with
  | [] => O
  | l :: rest =>
      ((if String.eqb l line then 1 else 0) + count_line line rest)%nat
  end.

(** *** Sample inputs *)

Fixpoint bytes_eqb (a b : bytes) : bool :=
  match a, b with
  | [], [] => true
  | x :: a', y :: b' => Byte.eqb x y && bytes_eqb a' b'
  | _, _ => false
  end.

Definition lines_text (lines : list string) : string :=
  Text.join (String Text.LF EmptyString) lines.

Definition sample_uuid (n : nat) : string :=
  match n with
  | O => "0b0e3c5a-7d1f-4c2e-9a55-3f6d2b8e4c10"
  | S O => "c4a1f0d2-93b7-4e68-8f21-5ad09e7b1c36"
  | _ => "e7d9a6b4-1c58-4f03-b2aa-90c47d5e2f81"
  end.

Definition sample_clock (n : nat) : datetime :=
  mkDatetime 2026 11 3 10 6 (Z.of_nat n) 0.

(** The four rows of the end-to-end scenario, under their header. *)
Definition scenario_records : list record :=
  [ Fields ["Assunto"; "Data"];
    Fields ["Dentist"; "20/05/2024"];
    Fields [""; "21/05/2024"];
    Fields ["X"; ""];
    Fields ["Y"; "bad-date"] ].

Definition scenario_bytes : bytes :=
  Text.encode_utf8
    (lines_text ["Assunto;Data"; "Dentist;20/05/2024"; ";21/05/2024";
                 "X;"; "Y;bad-date"]).

Definition scenario_env : env :=
  mkEnv sample_uuid sample_clock
        (fun _ _ content =>
           if bytes_eqb content scenario_bytes then scenario_records else []).

Definition scenario_world : world :=
  mkWorld 0 0 [] {[ "eventos.csv" := scenario_bytes ]}.

(** A record shorter than the header, followed by a complete one. *)
Definition short_row_records : list record :=
  [ Fields ["Data"; "Assunto"];
    Fields ["20/05/2024"];
    Fields ["21/05/2024"; "Dentist"] ].

Definition short_row_bytes : bytes :=
  Text.encode_utf8
    (lines_text ["Data;Assunto"; "20/05/2024"; "21/05/2024;Dentist"]).

Definition short_row_env : env :=
  mkEnv sample_uuid sample_clock
        (fun _ _ content =>
           if bytes_eqb content short_row_bytes then short_row_records
           else []).

Definition short_row_world : world :=
  mkWorld 0 0 [] {[ "eventos.csv" := short_row_bytes ]}.

(** A file whose first two lines are plain ASCII and whose third line
    holds, more than 9000 bytes into the file, the single byte E3: the
    letter a-tilde in cp1252, and an incomplete sequence in UTF-8.  The text
    layer decodes a file in chunks of 8192 bytes, so under UTF-8 the header
    and the first row are read before the failure shows. *)
Definition long_subject : string :=
  Pos.iter (String "a") (String (Text.chr 227) "o") 9000.

Definition latin1_bytes (s : string) : bytes :=
  map byte_of_ascii (list_ascii_of_string s).

Definition late_failure_bytes : bytes :=
  latin1_bytes
    (lines_text ["Assunto;Data"; "Dentist;20/05/2024";
                 long_subject +:+ ";21/05/2024"]).

Definition late_failure_records (enc : encoding) : list record :=
  match enc with
  | Utf8 =>
      [ Fields ["Assunto"; "Data"];
        Fields ["Dentist"; "20/05/2024"];
        Broken UnicodeDecodeError ]
  | Cp1252 =>
      [ Fields ["Assunto"; "Data"];
        Fields ["Dentist"; "20/05/2024"];
        Fields [long_subject; "21/05/2024"] ]
  end.

Definition late_failure_env : env :=
  mkEnv sample_uuid sample_clock
        (fun enc _ content =>
           if bytes_eqb content late_failure_bytes
           then late_failure_records enc else []).

Definition late_failure_world : world :=
  mkWorld 0 0 [] {[ "eventos.csv" := late_failure_bytes ]}.

(** A subject in two lines, as a quoted field may hold it. *)
Definition two_line_subject : string := "Check" +:+ String Text.LF "up".

(** *** Further vocabulary *)

(** Fewest and most characters an item, then a format, can consume. *)
Definition item_min (i : Strptime.item) : nat :=
  match i with
  | Strptime.Lit _ => 1
  | Strptime.Day => 1
  | Strptime.Month => 1
  | Strptime.Year => 4
  end.

Definition item_max (i : Strptime.item) : nat :=
  match i with
  | Strptime.Lit _ => 1
  | Strptime.Day => 2
  | Strptime.Month => 2
  | Strptime.Year => 4
  end.

Fixpoint min_len (p : list Strptime.item) : nat :=
  match p with
  | [] => O
  | i :: p' => (item_min i + min_len p')%nat
  end.

Fixpoint max_len (p : list Strptime.item) : nat :=
  match p with
  | [] => O
  | i :: p' => (item_max i + max_len p')%nat
  end.

(** A date written day/month/year, and year-month-day, with leading
    zeros. *)
Definition dmy_text (y m d : Z) : string :=
  Text.pad2 d +:+ "/" +:+ Text.pad2 m +:+ "/" +:+ Text.pad4 y.

Definition ymd_text (y m d : Z) : string :=
  Text.pad4 y +:+ "-" +:+ Text.pad2 m +:+ "-" +:+ Text.pad2 d.

Definition is_digit (c : ascii) : bool := Strptime.between "0" "9" c.

(** The text [s] is [r] behind a prefix of [lo] to [hi] characters. *)
Definition consumed (lo hi : nat) (s r : string) : Prop :=
  exists pre, s = pre +:+ r /\ (lo <= String.length pre <= hi)%nat.

Fixpoint all_digits (s : string) : bool :=
  match s with
  | EmptyString => true
  | String c s' => is_digit c && all_digits s'
  end.

(** What one row adds to the log. *)
Definition row_log (target_subj target_date default_subject : string)
  (row : pydict) : list log_entry :=
  match row_clean_of row with
  | Raise _ => []
  | Ok row_clean =>
      (match row_clean !! target_subj with
       | Some (String _ _) => []
       | _ => [Warning_default_subject default_subject]
       end)
      ++ match row_clean !! target_date with
         | Some (String c s) =>
             match parse_date (String c s) with
             | Ok None => [Error_invalid_date (String c s)]
             | _ => []
             end
         | _ => [Warning_no_date row]
         end
  end.

(** What the loop adds to the log, up to the first exception. *)
Fixpoint rows_log (target_subj target_date default_subject : string)
  (fieldnames : list string) (records : list record) : list log_entry :=
  match records with
  | [] => []
  | Broken _ :: _ => []
  | Fields [] :: rest =>
      rows_log target_subj target_date default_subject fieldnames rest
  | Fields row :: rest =>
      row_log target_subj target_date default_subject
              (dict_row fieldnames row)
      ++ match row_outcome target_subj target_date default_subject
                           (dict_row fieldnames row) with
         | Raise _ => []
         | Ok _ =>
             rows_log target_subj target_date default_subject fieldnames rest
         end
  end.

(** The same two views for a whole reader: header first. *)
Definition reader_rows (target_subj target_date default_subject : string)
  (records : list record) : result (list (string * datetime)) :=
  match records with
  | [] => Ok []
  | Broken e :: _ => Raise e
  | Fields names :: rest =>
      accepted_rows target_subj target_date default_subject names rest
  end.

Definition reader_log (target_subj target_date default_subject : string)
  (records : list record) : list log_entry :=
  match records with
  | Fields names :: rest =>
      rows_log target_subj target_date default_subject names rest
  | _ => []
  end.

Definition is_row_level (entry : log_entry) : bool :=
  match entry with
  | Warning_default_subject _ | Warning_no_date _ | Error_invalid_date _ => true
  | _ => false
  end.

Definition is_skip (entry : log_entry) : bool :=
  match entry with
  | Warning_no_date _ | Error_invalid_date _ => true
  | _ => false
  end.

Definition is_terminal (entry : log_entry) : bool :=
  match entry with
  | Info_success _ _ | Critical_not_found _ | Critical_error _ => true
  | _ => false
  end.

Definition count_log (f : log_entry -> bool) (l : list log_entry) : nat :=
  length (List.filter f l).

(** Records that hold a row: neither blank nor broken. *)
Fixpoint data_rows (records : list record) : nat :=
  match records with
  | [] => O
  | Fields (_ :: _) :: rest => S (data_rows rest)
  | _ :: rest => data_rows rest
  end.

(** A file with a header and no row. *)
Definition header_only_bytes : bytes := Text.encode_utf8 "Assunto;Data".

Definition header_only_env : env :=
  mkEnv sample_uuid sample_clock
        (fun _ _ content =>
           if bytes_eqb content header_only_bytes
           then [Fields ["Assunto"; "Data"]] else []).

Definition header_only_world : world :=
  mkWorld 0 0 [] {[ "eventos.csv" := header_only_bytes ]}.

(** A cp1252 file whose header already fails to decode as UTF-8: the
    second column is named Data followed by the byte E7. *)
Definition early_failure_bytes : bytes :=
  latin1_bytes
    (lines_text ["Assunto;Data" +:+ String (Text.chr 231) EmptyString;
                 "Dentist;20/05/2024"]).

Definition early_failure_records (enc : encoding) : list record :=
  match enc with
  | Utf8 => [Broken UnicodeDecodeError]
  | Cp1252 =>
      [ Fields ["Assunto"; "Data" +:+ String (Text.chr 231) EmptyString];
        Fields ["Dentist"; "20/05/2024"] ]
  end.

Definition early_failure_env : env :=
  mkEnv sample_uuid sample_clock
        (fun enc _ content =>
           if bytes_eqb content early_failure_bytes
           then early_failure_records enc else []).

Definition early_failure_world : world :=
  mkWorld 0 0 [] {[ "eventos.csv" := early_failure_bytes ]}.

(** A pair that cleaning a row passes over or accepts: the key is falsy, or
    the value is text. *)
Definition cleanable (kv : option string * pyval) : Prop :=
  truthy (fst kv) = false \/ exists s, snd kv = VStr s.

(** Line feeds the subjects and identifiers of entries hold. *)
Definition entry_line_feeds (entries : list entry) : nat :=
  sum_list (map (fun en => (Text.count_char Text.LF (e_subject en)
                            + Text.count_char Text.LF (e_uid en))%nat)
                entries).

(** A generator that returns the same identifier at every draw. *)
Definition stuck_uuid_env : env :=
  mkEnv (fun _ => sample_uuid 0) sample_clock (fun _ _ _ => []).

(** * Properties *)

(** ** Dates: what [strptime] and [parse_date] return *)

Lemma new_only_value_error y m d h mi s us e :
  Datetime.new y m d h mi s us = Raise e -> e = ValueError.
Proof.
  unfold Datetime.new.
  destruct (check_date_fields y m d && check_time_fields h mi s us);
    congruence.
Qed.

Lemma new_ok y m d h mi s us dt :
  Datetime.new y m d h mi s us = Ok dt ->
  dt = mkDatetime y m d h mi s us /\ well_formed dt.
Proof.
  unfold Datetime.new, well_formed.
  destruct (check_date_fields y m d && check_time_fields h mi s us) eqn:Hc;
    [|discriminate].
  intros [= <-]. apply andb_true_iff in Hc. simpl. tauto.
Qed.

Lemma strptime_only_value_error data_string format e :
  Strptime.strptime data_string format = Raise e -> e = ValueError.
Proof.
  unfold Strptime.strptime.
  destruct (Strptime.compile format) as [p|]; [|congruence].
  destruct (Strptime.matches p Strptime.nothing data_string)
    as [|[f rest] ?]; [congruence|].
  destruct rest; [|congruence].
  apply new_only_value_error.
Qed.

Lemma strptime_midnight data_string format dt :
  Strptime.strptime data_string format = Ok dt ->
  well_formed dt
  /\ hour dt = 0 /\ minute dt = 0 /\ second dt = 0 /\ microsecond dt = 0.
Proof.
  unfold Strptime.strptime.
  destruct (Strptime.compile format) as [p|]; [|discriminate].
  destruct (Strptime.matches p Strptime.nothing data_string)
    as [|[f rest] ?]; [discriminate|].
  destruct rest; [|discriminate].
  intros H. apply new_ok in H as [-> Hwf]. simpl. tauto.
Qed.

Lemma parse_date_loop_never_raises date_str fmts :
  exists r, parse_date_loop date_str fmts = Ok r.
Proof.
  induction fmts as [|fmt rest IH]; simpl; [eauto|].
  destruct (Strptime.strptime date_str fmt) as [dt|e] eqn:Hs; [eauto|].
  apply strptime_only_value_error in Hs as ->. exact IH.
Qed.

Lemma parse_date_loop_some date_str fmts dt :
  parse_date_loop date_str fmts = Ok (Some dt) ->
  exists fmt, In fmt fmts /\ Strptime.strptime date_str fmt = Ok dt.
Proof.
  induction fmts as [|fmt rest IH]; simpl; [discriminate|].
  destruct (Strptime.strptime date_str fmt) as [dt'|e] eqn:Hs.
  - intros [= ->]. eauto.
  - destruct e; try discriminate.
    intros H. destruct (IH H) as (f & Hin & Hf). eauto.
Qed.

Lemma parse_date_midnight date_str dt :
  parse_date date_str = Ok (Some dt) ->
  well_formed dt
  /\ hour dt = 0 /\ minute dt = 0 /\ second dt = 0 /\ microsecond dt = 0.
Proof.
  intros H. apply parse_date_loop_some in H as (fmt & _ & Hs).
  exact (strptime_midnight _ _ _ Hs).
Qed.

(** C2. [parse_date] never raises: on every text it returns either an
    instant or [None].  It returns what the day/month/year layout gives when
    that one parses the whole text, otherwise what the year-month-day layout
    gives, and [None] exactly when both layouts reject the text.  The texts
    15/03/2024 and 2024-03-15 both give 15 March 2024 at midnight, and
    not-a-date gives [None]. *)
Theorem parse_date_total_and_ordered :
  (forall date_str, exists r, parse_date date_str = Ok r)
  /\ (forall date_str,
        parse_date date_str =
        Ok (match Strptime.strptime date_str "%d/%m/%Y" with
            | Ok dt => Some dt
            | Raise _ =>
                match Strptime.strptime date_str "%Y-%m-%d" with
                | Ok dt => Some dt
                | Raise _ => None
                end
            end))
  /\ (forall date_str,
        parse_date date_str = Ok None <->
        Strptime.strptime date_str "%d/%m/%Y" = Raise ValueError
        /\ Strptime.strptime date_str "%Y-%m-%d" = Raise ValueError)
  /\ parse_date "15/03/2024" = Ok (Some (mkDatetime 2024 3 15 0 0 0 0))
  /\ parse_date "2024-03-15" = Ok (Some (mkDatetime 2024 3 15 0 0 0 0))
  /\ parse_date "not-a-date" = Ok None.
Proof.
  assert (Hshape : forall date_str,
    parse_date date_str =
    Ok (match Strptime.strptime date_str "%d/%m/%Y" with
        | Ok dt => Some dt
        | Raise _ =>
            match Strptime.strptime date_str "%Y-%m-%d" with
            | Ok dt => Some dt
            | Raise _ => None
            end
        end)).
  { intros date_str. unfold parse_date. simpl.
    destruct (Strptime.strptime date_str "%d/%m/%Y") as [dt|e] eqn:H1;
      [reflexivity|].
    apply strptime_only_value_error in H1 as ->.
    destruct (Strptime.strptime date_str "%Y-%m-%d") as [dt|e] eqn:H2;
      [reflexivity|].
    apply strptime_only_value_error in H2 as ->. reflexivity. }
  split; [intros; apply parse_date_loop_never_raises|].
  split; [exact Hshape|].
  split.
  - intros date_str. rewrite Hshape.
    destruct (Strptime.strptime date_str "%d/%m/%Y") as [dt|e] eqn:H1.
    + split; [discriminate|intros [? _]; discriminate].
    + apply strptime_only_value_error in H1 as ->.
      destruct (Strptime.strptime date_str "%Y-%m-%d") as [dt|e] eqn:H2.
      * split; [discriminate|intros [_ ?]; discriminate].
      * apply strptime_only_value_error in H2 as ->. tauto.
  - repeat split; vm_compute; reflexivity.
Qed.

(** ** The event block *)

Ltac unpack_checks :=
  repeat match goal with
  | H : well_formed _ |- _ => destruct H
  | H : check_date_fields _ _ _ = true |- _ =>
      unfold check_date_fields, MINYEAR, MAXYEAR in H
  | H : check_time_fields _ _ _ _ = true |- _ =>
      unfold check_time_fields in H
  | H : (_ && _) = true |- _ => apply andb_true_iff in H; destruct H
  | H : (_ <=? _) = true |- _ => apply Z.leb_le in H
  end.

Lemma start_event_of_well_formed dt :
  well_formed dt -> start_event_of dt = Ok (at_time dt 9 0).
Proof.
  intros [Hd Ht]. unfold start_event_of, replace_hms, Datetime.new.
  rewrite Hd. simpl.
  replace (check_time_fields 9 0 0 (microsecond dt)) with true;
    [reflexivity|].
  unfold check_time_fields in *. simpl.
  repeat (apply andb_true_iff in Ht; destruct Ht as [Ht ?]).
  symmetry. apply andb_true_iff. auto.
Qed.

Lemma normalize_pair_in_range hi lo factor :
  0 <= lo < factor -> normalize_pair hi lo factor = (hi, lo).
Proof.
  intros H. unfold normalize_pair.
  replace ((lo <? 0) || (factor <=? lo)) with false; [reflexivity|].
  symmetry. apply orb_false_iff. split; [apply Z.ltb_ge | apply Z.leb_gt]; lia.
Qed.

Lemma normalize_y_m_d_in_range y m d :
  check_date_fields y m d = true -> normalize_y_m_d y m d = Ok (y, m, d).
Proof.
  intros H. unpack_checks. unfold normalize_y_m_d, MINYEAR, MAXYEAR.
  replace ((d <? 1) || (days_in_month y m <? d)) with false
    by (symmetry; apply orb_false_iff; split; apply Z.ltb_ge; lia).
  replace ((1 <=? y) && (y <=? 9999)) with true
    by (symmetry; apply andb_true_iff; split; apply Z.leb_le; lia).
  reflexivity.
Qed.

Lemma end_event_of_well_formed dt :
  well_formed dt -> end_event_of (at_time dt 9 0) = Ok (at_time dt 9 30).
Proof.
  intros [Hd Ht].
  assert (Hus : 0 <= microsecond dt < 1000000) by (unpack_checks; lia).
  unfold end_event_of, Datetime.add.
  change (timedelta_minutes 30) with (mkTimedelta 0 1800 0).
  cbn [at_time year month day hour minute second microsecond
       td_days td_seconds td_microseconds].
  rewrite !Z.add_0_r.
  change (0 + 1800) with 1800.
  rewrite (normalize_pair_in_range 1800 (microsecond dt) 1000000 Hus).
  cbv beta iota.
  change (normalize_pair 0 1800 60) with (30, 0). cbv beta iota.
  change (normalize_pair 9 30 60) with (9, 30). cbv beta iota.
  rewrite (normalize_pair_in_range (day dt) 9 24) by lia.
  rewrite (normalize_y_m_d_in_range _ _ _ Hd).
  reflexivity.
Qed.


Lemma generate_event_block_well_formed E subject start_date w :
  well_formed start_date ->
  generate_event_block E subject start_date w =
  (Ok (event_lines subject (uuid_at E (uuid_calls w))
         (clock_at E (now_calls w))
         (at_time start_date 9 0) (at_time start_date 9 30)),
   mkWorld (S (uuid_calls w)) (S (now_calls w)) (log w) (fs w)).
Proof.
  intros Hwf. unfold generate_event_block, bind, lift.
  rewrite (start_event_of_well_formed _ Hwf).
  rewrite (end_event_of_well_formed _ Hwf).
  reflexivity.
Qed.

(** ** One row, then all rows *)

(** What [process_row] returns and what it leaves behind, read off the
    outcome of the row. *)
Lemma parse_date_never_raises date_str e : parse_date date_str <> Raise e.
Proof.
  destruct (parse_date_loop_never_raises date_str ["%d/%m/%Y"; "%Y-%m-%d"])
    as [r Hr].
  unfold parse_date. congruence.
Qed.

Ltac row_facts :=
  simpl; repeat split; try lia;
  first [ exists []; rewrite app_nil_r; reflexivity
        | eexists; rewrite <- ?app_assoc; reflexivity ].

Lemma process_row_spec E cs cd ds row p w :
  let o := row_outcome (target_col_subj cs) (target_col_date cd) ds row in
  let rw := process_row E cs cd ds row p w in
  fst rw =
    match o with
    | Raise e => Raise e
    | Ok (ACCEPTED subject dt) =>
        Ok (mkProgress
              (ics_events p
               ++ entry_lines (mkEntry subject (uuid_at E (uuid_calls w))
                                       (clock_at E (now_calls w)) dt))
              (S (processed_count p)))
    | Ok _ => Ok p
    end
  /\ fs (snd rw) = fs w
  /\ uuid_calls (snd rw) = (uuid_calls w + accepted_count o)%nat
  /\ now_calls (snd rw) = (now_calls w + accepted_count o)%nat
  /\ exists entries, log (snd rw) = (log w ++ entries)%list.
Proof.
  cbv zeta. unfold process_row, row_outcome, bind, lift.
  destruct (row_clean_of row) as [rc|e]; simpl.
  2: { repeat split; try lia. exists []. rewrite app_nil_r. reflexivity. }
  destruct (rc !! target_col_date cd) as [[|c d]|] eqn:Hd;
    destruct (rc !! target_col_subj cs) as [[|c' s']|] eqn:Hs;
    simpl; unfold bind, logging, ret; simpl; try row_facts.
  all: destruct (parse_date (String c d)) as [[dt|]|e] eqn:Hp;
    [ | row_facts | exfalso; exact (parse_date_never_raises _ _ Hp) ].
  all: destruct (parse_date_midnight _ _ Hp) as [Hwf _];
    rewrite (generate_event_block_well_formed _ _ _ _ Hwf); row_facts.
Qed.

(** The loop accumulates, in row order, the blocks of the accepted rows,
    numbered from the current counters; it stops at the first exception. *)
Lemma process_rows_spec E cs cd ds fieldnames records : forall p w,
  let a := accepted_rows (target_col_subj cs) (target_col_date cd) ds
                         fieldnames records in
  let rw := process_rows E cs cd ds fieldnames records p w in
  fst rw =
    match a with
    | Raise e => Raise e
    | Ok l =>
        Ok (mkProgress
              (ics_events p
               ++ concat (map entry_lines
                              (number E (uuid_calls w) (now_calls w) l)))
              (processed_count p + length l))
    end
  /\ fs (snd rw) = fs w
  /\ (exists entries, log (snd rw) = (log w ++ entries)%list)
  /\ (forall l, a = Ok l ->
        uuid_calls (snd rw) = (uuid_calls w + length l)%nat
        /\ now_calls (snd rw) = (now_calls w + length l)%nat).
Proof.
  induction records as [|[row|e] rest IH]; intros p w; cbv zeta.
  - simpl. rewrite app_nil_r, Nat.add_0_r. destruct p.
    split; [reflexivity|]. split; [reflexivity|]. split.
    + exists []. rewrite app_nil_r. reflexivity.
    + intros l [= <-]. simpl. lia.
  - destruct row as [|f row].
    { simpl. apply IH. }
    cbn [process_rows accepted_rows]. unfold bind.
    pose proof (process_row_spec E cs cd ds (dict_row fieldnames (f :: row))
                  p w) as Hrow.
    cbv zeta in Hrow.
    destruct (process_row E cs cd ds (dict_row fieldnames (f :: row)) p w)
      as [r w1].
    simpl in Hrow. destruct Hrow as (Hr & Hfs & Hu & Hn & [en Hlog]).
    destruct (row_outcome (target_col_subj cs) (target_col_date cd) ds
                (dict_row fieldnames (f :: row))) as [[subject dt| |]|e];
      subst r; simpl in Hu, Hn.
    + specialize (IH (mkProgress
          (ics_events p
           ++ entry_lines (mkEntry subject (uuid_at E (uuid_calls w))
                                   (clock_at E (now_calls w)) dt))
          (S (processed_count p))) w1).
      cbv zeta in IH. destruct IH as (IHr & IHfs & [en' IHlog] & IHc).
      assert (Hlogs : exists entries,
                 log (snd (process_rows E cs cd ds fieldnames rest
                   (mkProgress
                      (ics_events p
                       ++ entry_lines
                            (mkEntry subject (uuid_at E (uuid_calls w))
                                     (clock_at E (now_calls w)) dt))
                      (S (processed_count p))) w1))
                 = (log w ++ entries)%list).
      { exists (en ++ en')%list. rewrite IHlog, Hlog, app_assoc.
        reflexivity. }
      destruct (accepted_rows (target_col_subj cs) (target_col_date cd) ds
                  fieldnames rest) as [l|e].
      * split; [|split; [congruence|split; [exact Hlogs|]]].
        -- rewrite IHr. cbn [ics_events processed_count number map concat
                             length].
           rewrite Hu, Hn, !Nat.add_1_r, <- app_assoc.
           f_equal. f_equal. lia.
        -- intros l' [= <-]. destruct (IHc l eq_refl). simpl. lia.
      * split; [assumption|split; [congruence|split; [exact Hlogs|]]].
        discriminate.
    + specialize (IH p w1). cbv zeta in IH.
      destruct IH as (IHr & IHfs & [en' IHlog] & IHc).
      rewrite Nat.add_0_r in Hu, Hn. rewrite Hu, Hn in *.
      split; [assumption|split; [congruence|split; [|assumption]]].
      exists (en ++ en')%list. rewrite IHlog, Hlog, app_assoc. reflexivity.
    + specialize (IH p w1). cbv zeta in IH.
      destruct IH as (IHr & IHfs & [en' IHlog] & IHc).
      rewrite Nat.add_0_r in Hu, Hn. rewrite Hu, Hn in *.
      split; [assumption|split; [congruence|split; [|assumption]]].
      exists (en ++ en')%list. rewrite IHlog, Hlog, app_assoc. reflexivity.
    + split; [reflexivity|split; [assumption|split; [eauto|discriminate]]].
  - simpl. split; [reflexivity|split; [reflexivity|split; [|discriminate]]].
    exists []. rewrite app_nil_r. reflexivity.
Qed.

(** ** The time window of an event *)



(** ** The assembled document *)

Lemma count_line_app line l1 l2 :
  count_line line (l1 ++ l2) = (count_line line l1 + count_line line l2)%nat.
Proof. induction l1 as [|l r IH]; simpl; [reflexivity|]. rewrite IH. lia. Qed.

Lemma entry_lines_length en : length (entry_lines en) = 14%nat.
Proof. reflexivity. Qed.

Lemma blocks_length entries :
  length (concat (map entry_lines entries)) = (14 * length entries)%nat.
Proof.
  induction entries as [|en rest IH]; [reflexivity|].
  cbn [map concat]. rewrite length_app, IH, entry_lines_length.
  simpl. lia.
Qed.

Lemma count_begin_vevent entries :
  count_line "BEGIN:VEVENT" (concat (map entry_lines entries))
  = length entries.
Proof.
  induction entries as [|en rest IH]; [reflexivity|].
  cbn [map concat]. rewrite count_line_app, IH. reflexivity.
Qed.

Lemma count_end_vevent entries :
  count_line "END:VEVENT" (concat (map entry_lines entries)) = length entries.
Proof.
  induction entries as [|en rest IH]; [reflexivity|].
  cbn [map concat]. rewrite count_line_app, IH. reflexivity.
Qed.

Lemma count_begin_vtimezone entries :
  count_line "BEGIN:VTIMEZONE" (concat (map entry_lines entries)) = O.
Proof.
  induction entries as [|en rest IH]; [reflexivity|].
  cbn [map concat]. rewrite count_line_app, IH. reflexivity.
Qed.

(** C3. With no entry the document is the header lines, the one timezone
    block and the terminating line.  With a sequence of entries it is the
    same envelope around their blocks: as many blocks as entries, each block
    in the place of its entry in the sequence, after the timezone block and
    before the terminator.  The loop over the rows hands the assembler the
    blocks of the accepted rows in row order. *)
Theorem assembled_document_shape :
  generate_ics_structure []
  = calendar_header ++ timezone_block ++ ["END:VCALENDAR"]
  /\ (forall entries,
        let doc := generate_ics_structure (concat (map entry_lines entries)) in
        doc = calendar_header ++ timezone_block
              ++ concat (map entry_lines entries) ++ ["END:VCALENDAR"]
        /\ length doc = (14 + 14 * length entries + 1)%nat
        /\ count_line "BEGIN:VTIMEZONE" doc = 1%nat
        /\ count_line "BEGIN:VEVENT" doc = length entries
        /\ count_line "END:VEVENT" doc = length entries
        /\ count_line "END:VCALENDAR" doc = 1%nat)
  /\ (forall before en after,
        take 14 (drop (14 + 14 * length before)
                   (generate_ics_structure
                      (concat (map entry_lines (before ++ en :: after)))))
        = entry_lines en)
  /\ (forall E cs cd ds fieldnames records p w,
        fst (process_rows E cs cd ds fieldnames records p w) =
        match accepted_rows (target_col_subj cs) (target_col_date cd) ds
                            fieldnames records with
        | Raise e => Raise e
        | Ok l =>
            Ok (mkProgress
                  (ics_events p
                   ++ concat (map entry_lines
                                  (number E (uuid_calls w) (now_calls w) l)))
                  (processed_count p + length l))
        end).
Proof.
  split; [reflexivity|]. split; [|split].
  - intros entries doc. subst doc. unfold generate_ics_structure, header.
    split; [rewrite <- app_assoc; reflexivity|].
    split; [rewrite !length_app, blocks_length; simpl; lia|].
    rewrite !count_line_app, count_begin_vtimezone, count_begin_vevent,
      count_end_vevent.
    repeat split; try (simpl; lia).
    assert (H : count_line "END:VCALENDAR" (concat (map entry_lines entries))
                = O).
    { induction entries as [|en rest IH]; [reflexivity|].
      cbn [map concat]. rewrite count_line_app, IH. reflexivity. }
    rewrite H. reflexivity.
  - intros before en after. unfold generate_ics_structure.
    rewrite drop_app_add' by reflexivity.
    rewrite map_app, concat_app. cbn [map concat].
    rewrite <- !app_assoc.
    rewrite drop_app_length' by (rewrite blocks_length; reflexivity).
    rewrite take_app_length' by reflexivity. reflexivity.
  - intros. apply process_rows_spec.
Qed.

(** ** The end-to-end scenario *)

Lemma open_reader_found E input_file delimiter enc w content :
  fs w !! input_file = Some content ->
  String.length delimiter = 1%nat ->
  open_reader E input_file delimiter enc w
  = (Ok (csv_records E enc delimiter content), w).
Proof.
  intros Hf Hd. unfold open_reader. rewrite Hf, Hd. reflexivity.
Qed.




(** ** Rows that end the run *)

(** C5. A record shorter than the header gives the missing columns the
    value [None]; cleaning the row then calls [strip] on [None], and the
    [AttributeError] leaves the loop: the run ends with a critical log line
    and writes nothing, although the next row is complete.  Dropping the
    short record, the same file is converted. *)
Theorem short_row_aborts_run :
  dict_row ["Data"; "Assunto"] ["20/05/2024"]
  = [(Some "Data", VStr "20/05/2024"); (Some "Assunto", VNone)]
  /\ (forall E ds p w,
        process_row E "Assunto" "Data" ds
          (dict_row ["Data"; "Assunto"] ["20/05/2024"]) p w
        = (Raise AttributeError, w))
  /\ (forall E ds w,
        read_events E "Assunto" "Data" ds short_row_records w
        = (Raise AttributeError, w))
  /\ process_csv short_row_env "eventos.csv" "calendario.ics" ";"
       "Assunto" "Data" "Evento Importado" short_row_world
     = mkWorld 0 0 [Critical_error AttributeError] (fs short_row_world)
  /\ fs short_row_world !! "calendario.ics" = None
  /\ accepted_rows "assunto" "data" "Evento Importado" ["Data"; "Assunto"]
       [Fields ["21/05/2024"; "Dentist"]]
     = Ok [("Dentist", mkDatetime 2024 5 21 0 0 0 0)].
Proof.
  split; [reflexivity|].
  split; [reflexivity|].
  split; [reflexivity|].
  split; [vm_compute; reflexivity|].
  split; vm_compute; reflexivity.
Qed.

(** ** Decoding failures past the first row *)

Lemma fallback_when_first_row_fails E input_file delimiter w content :
  fs w !! input_file = Some content ->
  String.length delimiter = 1%nat ->
  first_row (csv_records E Utf8 delimiter content) = Raise UnicodeDecodeError ->
  open_with_fallback E input_file delimiter w
  = (Ok (csv_records E Cp1252 delimiter content), w).
Proof.
  intros Hf Hd Hfirst. unfold open_with_fallback.
  rewrite (open_reader_found _ _ _ Utf8 _ _ Hf Hd), Hfirst.
  apply open_reader_found; assumption.
Qed.

Lemma no_fallback_after_first_row E input_file delimiter w content r :
  fs w !! input_file = Some content ->
  String.length delimiter = 1%nat ->
  first_row (csv_records E Utf8 delimiter content) = Ok r ->
  open_with_fallback E input_file delimiter w
  = (Ok (csv_records E Utf8 delimiter content), w).
Proof.
  intros Hf Hd Hfirst. unfold open_with_fallback.
  rewrite (open_reader_found _ _ _ Utf8 _ _ Hf Hd), Hfirst. reflexivity.
Qed.

(** C6. When the bytes that UTF-8 cannot decode lie beyond the first data
    row, the attempt on the first row succeeds, the reader over UTF-8 is
    kept, and the [UnicodeDecodeError] raised later in the loop ends the run
    with a critical log line and no output: cp1252 is never tried, although
    it decodes the whole file into two rows that would both be accepted. *)
Theorem late_decoding_failure_is_fatal :
  first_row (csv_records late_failure_env Utf8 ";" late_failure_bytes)
  = Ok (dict_row ["Assunto"; "Data"] ["Dentist"; "20/05/2024"],
        [Broken UnicodeDecodeError])
  /\ open_with_fallback late_failure_env "eventos.csv" ";" late_failure_world
     = (Ok (late_failure_records Utf8), late_failure_world)
  /\ process_csv late_failure_env "eventos.csv" "calendario.ics" ";"
       "Assunto" "Data" "Evento Importado" late_failure_world
     = mkWorld 1 1 [Critical_error UnicodeDecodeError]
               (fs late_failure_world)
  /\ fs late_failure_world !! "calendario.ics" = None
  /\ accepted_rows "assunto" "data" "Evento Importado" ["Assunto"; "Data"]
       (tail (csv_records late_failure_env Cp1252 ";" late_failure_bytes))
     = Ok [ ("Dentist", mkDatetime 2024 5 20 0 0 0 0);
            (long_subject, mkDatetime 2024 5 21 0 0 0 0) ].
Proof.
  split; [vm_compute; reflexivity|].
  split; [vm_compute; reflexivity|].
  split; [vm_compute; reflexivity|].
  split; vm_compute; reflexivity.
Qed.

(** ** The output file *)

Lemma open_reader_world E input_file delimiter enc w :
  snd (open_reader E input_file delimiter enc w) = w.
Proof.
  unfold open_reader. destruct (fs w !! input_file); [|reflexivity].
  destruct (String.length delimiter =? 1)%nat; reflexivity.
Qed.

Lemma open_reader_missing E input_file delimiter enc w :
  fs w !! input_file = None ->
  open_reader E input_file delimiter enc w = (Raise FileNotFoundError, w).
Proof. intros H. unfold open_reader. rewrite H. reflexivity. Qed.

Lemma open_with_fallback_world E input_file delimiter w :
  snd (open_with_fallback E input_file delimiter w) = w.
Proof.
  unfold open_with_fallback.
  pose proof (open_reader_world E input_file delimiter Utf8 w) as H1.
  destruct (open_reader E input_file delimiter Utf8 w) as [[records|e] w1].
  - simpl in H1. subst w1.
    destruct (first_row records) as [?|[]]; try reflexivity.
    apply open_reader_world.
  - simpl in H1. subst w1.
    destruct e; try reflexivity. apply open_reader_world.
Qed.

Lemma read_events_fs E cs cd ds records w :
  fs (snd (read_events E cs cd ds records w)) = fs w.
Proof.
  destruct records as [|[names|e] rest]; try reflexivity.
  unfold read_events.
  apply (process_rows_spec E cs cd ds names rest (mkProgress [] 0) w).
Qed.

(** C7. When the input file is missing the run logs the critical line and
    leaves the file system as it was.  In general a run either fails, and
    then the file system is unchanged, or succeeds, and then the file system
    differs from the initial one by the single write of the whole document
    to the output file: the document is assembled from the events held in
    memory and nothing is written before the reading and the loop are
    over. *)
Theorem output_written_once_at_the_end
  E input_file output_file delimiter cs cd ds w :
  let run := process_csv E input_file output_file delimiter cs cd ds in
  let attempt := process_csv_try E input_file output_file delimiter cs cd ds in
  (fs w !! input_file = None ->
     run w = mkWorld (uuid_calls w) (now_calls w)
                     (log w ++ [Critical_not_found input_file]) (fs w))
  /\ ((exists e, fst (attempt w) = Raise e /\ fs (run w) = fs w)
      \/ (exists p,
            fst (attempt w) = Ok tt
            /\ fs (run w)
               = <[output_file :=
                     Text.encode_utf8
                       (Text.join Text.CRLF
                          (generate_ics_structure (ics_events p)))]> (fs w)))
  /\ (forall e w1,
        open_with_fallback E input_file delimiter w = (Raise e, w1) ->
        fs (run w) = fs w)
  /\ (forall records w1 e w2,
        open_with_fallback E input_file delimiter w = (Ok records, w1) ->
        read_events E cs cd ds records w1 = (Raise e, w2) ->
        fs (run w) = fs w).
Proof.
  intros run attempt. subst run attempt.
  unfold process_csv, process_csv_try, bind.
  pose proof (open_with_fallback_world E input_file delimiter w) as Hopen.
  split; [|split; [|split]].
  - intros Hmissing. unfold open_with_fallback.
    rewrite (open_reader_missing _ _ _ _ _ Hmissing). reflexivity.
  - destruct (open_with_fallback E input_file delimiter w)
      as [[records|e] w1]; simpl in Hopen; subst w1.
    + pose proof (read_events_fs E cs cd ds records w) as Hread.
      destruct (read_events E cs cd ds records w) as [[p|e] w2];
        simpl in Hread.
      * right. exists p. simpl. rewrite Hread. split; reflexivity.
      * left. exists e. split; [reflexivity|].
        destruct e; simpl; exact Hread.
    + left. exists e. split; [reflexivity|]. destruct e; reflexivity.
  - intros e w1 H. rewrite H in *. simpl in Hopen. subst w1.
    destruct e; reflexivity.
  - intros records w1 e w2 H1 H2. rewrite H1 in *. simpl in Hopen. subst w1.
    pose proof (read_events_fs E cs cd ds records w) as Hread.
    rewrite H2 in *. simpl in Hread. destruct e; simpl; exact Hread.
Qed.

Lemma output_written_once_at_the_end_witness :
  fs scenario_world !! "ausente.csv" = None
  /\ process_csv scenario_env "ausente.csv" "calendario.ics" ";"
       "Assunto" "Data" "Evento Importado" scenario_world
     = mkWorld 0 0 [Critical_not_found "ausente.csv"] (fs scenario_world).
Proof.
  assert (H : fs scenario_world !! "ausente.csv" = None)
    by (vm_compute; reflexivity).
  split; [exact H|].
  exact (proj1 (output_written_once_at_the_end scenario_env "ausente.csv"
                  "calendario.ics" ";" "Assunto" "Data" "Evento Importado"
                  scenario_world) H).
Defined.

(** ** Identifiers *)

Lemma number_uids E nu nn l :
  map e_uid (number E nu nn l) = map (uuid_at E) (seq nu (length l)).
Proof.
  revert nu nn. induction l as [|[subject dt] rest IH]; intros nu nn;
    [reflexivity|].
  simpl. f_equal. apply IH.
Qed.

Lemma number_rows E nu nn l :
  map (fun en => (e_subject en, e_date en)) (number E nu nn l) = l.
Proof.
  revert nu nn. induction l as [|[subject dt] rest IH]; intros nu nn;
    [reflexivity|].
  simpl. f_equal. apply IH.
Qed.

Lemma uid_line_inj a b : "UID:" +:+ a = "UID:" +:+ b -> a = b.
Proof. simpl. intros [= H]. exact H. Qed.

Lemma NoDup_uid_lines (uids : list string) :
  NoDup uids -> NoDup (map (fun u => "UID:" +:+ u) uids).
Proof.
  induction 1 as [|u rest Hnot Hnodup IH]; simpl; constructor; [|exact IH].
  rewrite list_elem_of_In, in_map_iff. intros (u' & Heq & Hin).
  apply uid_line_inj in Heq. subst u'.
  apply Hnot, list_elem_of_In, Hin.
Qed.

(** ** The subject line *)

Lemma count_char_append c a b :
  Text.count_char c (a +:+ b)
  = (Text.count_char c a + Text.count_char c b)%nat.
Proof.
  induction a as [|d a IH]; [reflexivity|].
  simpl. rewrite IH. lia.
Qed.

Lemma join_line_feeds line lines :
  Text.count_char Text.LF (Text.join Text.CRLF (line :: lines))
  = (length lines
     + sum_list (map (Text.count_char Text.LF) (line :: lines)))%nat.
Proof.
  revert line. induction lines as [|l rest IH]; intros line.
  - simpl. lia.
  - change (Text.join Text.CRLF (line :: l :: rest))
      with (line +:+ Text.CRLF +:+ Text.join Text.CRLF (l :: rest)).
    rewrite !count_char_append, IH.
    change (Text.count_char Text.LF Text.CRLF) with 1%nat.
    simpl. lia.
Qed.

(** C10. The sixth line of a block is [SUMMARY:] followed by the subject,
    character for character: nothing is escaped.  Joined with CR LF, a
    block of fourteen lines therefore shows at least one more physical line
    per line feed in the subject.  Such a subject reaches the builder:
    cleaning a row trims the ends of a value and keeps a line feed inside
    it. *)
Theorem subject_written_verbatim E subject start_date w :
  well_formed start_date ->
  (exists block w',
     generate_event_block E subject start_date w = (Ok block, w')
     /\ length block = 14%nat
     /\ block !! 5%nat = Some ("SUMMARY:" +:+ subject)
     /\ (14 + Text.count_char Text.LF subject
         <= physical_lines (Text.join Text.CRLF block))%nat)
  /\ row_outcome "assunto" "data" "Evento Importado"
       (dict_row ["Assunto"; "Data"]
                 [" " +:+ two_line_subject +:+ " "; "20/05/2024"])
     = Ok (ACCEPTED two_line_subject (mkDatetime 2024 5 20 0 0 0 0))
  /\ Text.count_char Text.LF two_line_subject = 1%nat.
Proof.
  intros Hwf. split; [|split; vm_compute; reflexivity].
  eexists; eexists.
  split; [apply (generate_event_block_well_formed _ _ _ _ Hwf)|].
  split; [reflexivity|]. split; [reflexivity|].
  unfold physical_lines, event_lines.
  rewrite join_line_feeds.
  cbn [map sum_list length].
  rewrite (count_char_append Text.LF "SUMMARY:" subject).
  change (Text.count_char Text.LF "SUMMARY:") with 0%nat.
  unfold id. lia.
Qed.

Lemma subject_written_verbatim_witness :
  well_formed (mkDatetime 2024 5 20 0 0 0 0)
  /\ exists block w',
       generate_event_block scenario_env two_line_subject
         (mkDatetime 2024 5 20 0 0 0 0) scenario_world = (Ok block, w')
       /\ length block = 14%nat
       /\ (15 <= physical_lines (Text.join Text.CRLF block))%nat.
Proof.
  assert (Hwf : well_formed (mkDatetime 2024 5 20 0 0 0 0))
    by (split; vm_compute; reflexivity).
  split; [exact Hwf|].
  destruct (subject_written_verbatim scenario_env two_line_subject
              (mkDatetime 2024 5 20 0 0 0 0) scenario_world Hwf)
    as ((block & w' & Hb & Hlen & _ & Hlines) & _ & Hlf).
  exists block, w'. split; [exact Hb|]. split; [exact Hlen|].
  rewrite Hlf in Hlines. exact Hlines.
Defined.

(** ** Column names *)

Lemma dict_set_in d k v : In (k, v) (dict_set d k v).
Proof.
  induction d as [|[k' v'] rest IH]; simpl; [auto|].
  destruct (decide (k' = k)); simpl; auto.
Qed.

Lemma dict_set_keeps_key d k v k' :
  In k' (map fst d) -> In k' (map fst (dict_set d k v)).
Proof.
  induction d as [|[k0 v0] rest IH]; simpl; [tauto|].
  intros [<-|Hin]; destruct (decide (k0 = k)) as [->|]; simpl; auto.
Qed.

Lemma dict_set_stringly d k v :
  Forall stringly d -> stringly (k, v) -> Forall stringly (dict_set d k v).
Proof.
  intros Hd Hkv. induction Hd as [|[k0 v0] rest H0 Hrest IH]; simpl.
  - constructor; [exact Hkv|constructor].
  - destruct (decide (k0 = k)); constructor; assumption.
Qed.

Lemma dict_set_fresh d k v :
  ~ In k (map fst d) -> dict_set d k v = d ++ [(k, v)].
Proof.
  induction d as [|[k0 v0] rest IH]; simpl; [reflexivity|].
  intros Hnot. destruct (decide (k0 = k)) as [->|]; [tauto|].
  rewrite IH; [reflexivity|tauto].
Qed.

Lemma dict_row_unfold fieldnames row :
  dict_row fieldnames row =
  let d := fold_left set_field (combine fieldnames row) [] in
  if (length fieldnames <? length row)%nat
  then dict_set d None (VList (skipn (length fieldnames) row))
  else if (length row <? length fieldnames)%nat
       then fold_left (fun d k => dict_set d (Some k) VNone)
                      (skipn (length row) fieldnames) d
       else d.
Proof. reflexivity. Qed.

Lemma fold_set_field_stringly pairs : forall d,
  Forall stringly d -> Forall stringly (fold_left set_field pairs d).
Proof.
  induction pairs as [|[k v] rest IH]; intros d Hd; simpl; [exact Hd|].
  apply IH, dict_set_stringly; [exact Hd|exact I].
Qed.

Lemma fold_set_field_keeps_key pairs : forall d k,
  In k (map fst d) -> In k (map fst (fold_left set_field pairs d)).
Proof.
  induction pairs as [|[k0 v0] rest IH]; intros d k Hin; simpl; [exact Hin|].
  apply IH, dict_set_keeps_key, Hin.
Qed.

Lemma fold_set_field_has_key pairs : forall d k v,
  In (k, v) pairs -> In (Some k) (map fst (fold_left set_field pairs d)).
Proof.
  induction pairs as [|[k0 v0] rest IH]; intros d k v Hin; simpl in *;
    [tauto|].
  destruct Hin as [[= -> ->]|Hin]; [|eapply IH, Hin].
  apply fold_set_field_keeps_key.
  apply (in_map fst _ (Some k, VStr v)), dict_set_in.
Qed.

Lemma fold_set_field_fresh pairs : forall d,
  NoDup (map fst pairs) ->
  (forall k, In k (map fst pairs) -> ~ In (Some k) (map fst d)) ->
  fold_left set_field pairs d
  = d ++ map (fun '(k, v) => (Some k, VStr v)) pairs.
Proof.
  induction pairs as [|[k v] rest IH]; intros d Hnodup Hfresh; simpl.
  - rewrite app_nil_r. reflexivity.
  - simpl in Hnodup. apply NoDup_cons in Hnodup as [Hk Hrest].
    rewrite dict_set_fresh by (apply Hfresh; simpl; auto).
    rewrite IH; [rewrite <- app_assoc; reflexivity|exact Hrest|].
    intros k' Hin. rewrite map_app, in_app_iff. simpl.
    intros [H|[[= ->]|[]]].
    + apply (Hfresh k'); simpl; auto.
    + apply Hk, list_elem_of_In, Hin.
Qed.

Lemma fst_combine {A B} (l : list A) (l' : list B) :
  (length l <= length l')%nat -> map fst (combine l l') = l.
Proof.
  revert l'. induction l as [|a l IH]; intros [|b l'] Hlen; simpl in *;
    try reflexivity; try lia.
  f_equal. apply IH. lia.
Qed.

(** A row at least as long as the header: its dictionary is accepted by
    the cleaning step and has every column name among its keys. *)
Lemma dict_row_long_enough fieldnames row :
  (length fieldnames <= length row)%nat ->
  Forall stringly (dict_row fieldnames row)
  /\ (forall name field,
        In (name, field) (combine fieldnames row) ->
        In (Some name) (map fst (dict_row fieldnames row))).
Proof.
  intros Hlen. rewrite dict_row_unfold. cbv zeta.
  assert (Hs : Forall stringly (fold_left set_field (combine fieldnames row) []))
    by (apply fold_set_field_stringly; constructor).
  destruct (length fieldnames <? length row)%nat eqn:Hlt.
  - split; [apply dict_set_stringly; [exact Hs|exact I]|].
    intros name field Hin.
    apply dict_set_keeps_key. eapply fold_set_field_has_key, Hin.
  - apply Nat.ltb_ge in Hlt.
    replace (length row <? length fieldnames)%nat with false
      by (symmetry; apply Nat.ltb_ge; lia).
    split; [exact Hs|].
    intros name field Hin. eapply fold_set_field_has_key, Hin.
Qed.

Lemma row_clean_from_ok items : forall acc,
  Forall stringly items -> exists m, row_clean_from items acc = Ok m.
Proof.
  induction items as [|[k v] rest IH]; intros acc Hs; simpl; [eauto|].
  apply Forall_cons in Hs as [Hkv Hrest].
  destruct k as [[|c name]|]; simpl; try (apply IH; exact Hrest).
  destruct v; simpl in Hkv; try contradiction. apply IH; exact Hrest.
Qed.

(** The value found under a key once a row is cleaned: [Some] as soon as an
    earlier step or one of the items put one there. *)
Lemma row_clean_from_finds items : forall acc m key,
  row_clean_from items acc = Ok m ->
  (is_Some (acc !! key)
   \/ exists name v, In (Some name, v) items /\ name <> ""
                     /\ normalize name = key) ->
  is_Some (m !! key).
Proof.
  induction items as [|[k v] rest IH]; intros acc m key Hrun Hsrc;
    simpl in Hrun.
  - injection Hrun as <-. destruct Hsrc as [H|(? & ? & [] & _)]. exact H.
  - destruct k as [[|c name]|]; simpl in Hrun.
    + apply (IH _ _ _ Hrun).
      destruct Hsrc as [H|(n & x & [[= <- <-]|Hin] & Hne & Hkey)]; eauto 6.
      contradiction.
    + destruct v as [s| |]; try discriminate.
      apply (IH _ _ _ Hrun).
      destruct (decide (normalize (String c name) = key)) as [Heq|Hne'].
      * left. unfold normalize in Heq. rewrite Heq, lookup_insert_eq. eauto.
      * destruct Hsrc as [H|(n & x & [[= <- <-]|Hin] & Hne & Hkey)].
        -- left. unfold normalize in Hne'. rewrite lookup_insert_ne; auto.
        -- contradiction.
        -- right. eauto 6.
    + apply (IH _ _ _ Hrun).
      destruct Hsrc as [H|(n & x & [[=]|Hin] & Hne & Hkey)]; eauto 6.
Qed.

(** The same, with the value: when all the items that normalise to the key
    hold the same text, its trimmed form is what is found. *)
Lemma row_clean_from_exact items v : forall acc m key,
  row_clean_from items acc = Ok m ->
  (forall name x, In (Some name, x) items -> name <> "" ->
                  normalize name = key -> x = VStr v) ->
  (acc !! key = Some (Text.strip v)
   \/ exists name, In (Some name, VStr v) items /\ name <> ""
                   /\ normalize name = key) ->
  m !! key = Some (Text.strip v).
Proof.
  induction items as [|[k x0] rest IH]; intros acc m key Hrun Hsame Hsrc;
    simpl in Hrun.
  - injection Hrun as <-. destruct Hsrc as [H|(? & [] & _)]. exact H.
  - assert (Hsame' : forall name x, In (Some name, x) rest -> name <> "" ->
                       normalize name = key -> x = VStr v)
      by (intros name x Hin; apply Hsame; right; exact Hin).
    destruct k as [[|c name]|]; simpl in Hrun.
    + apply (IH _ _ _ Hrun Hsame').
      destruct Hsrc as [H|(n & [[= <- <-]|Hin] & Hne & Hkey)]; eauto 6.
      contradiction.
    + destruct x0 as [s| |]; try discriminate.
      apply (IH _ _ _ Hrun Hsame').
      destruct (decide (normalize (String c name) = key)) as [Heq|Hne'].
      * left.
        assert (Hv : VStr s = VStr v)
          by (apply (Hsame (String c name)); [left; reflexivity
                                             |discriminate|exact Heq]).
        injection Hv as ->.
        unfold normalize in Heq. rewrite Heq, lookup_insert_eq. reflexivity.
      * destruct Hsrc as [H|(n & [[= <- <-]|Hin] & Hne & Hkey)].
        -- left. unfold normalize in Hne'. rewrite lookup_insert_ne; auto.
        -- contradiction.
        -- right. eauto 6.
    + apply (IH _ _ _ Hrun Hsame').
      destruct Hsrc as [H|(n & [[=]|Hin] & Hne & Hkey)]; eauto 6.
Qed.

Lemma combine_unique {A B C} (f : A -> C) (l : list A) : forall (l' : list B) a b a' b',
  NoDup (map f l) ->
  In (a, b) (combine l l') -> In (a', b') (combine l l') ->
  f a = f a' -> b = b'.
Proof.
  induction l as [|a0 l IH]; intros [|b0 l'] a b a' b' Hnodup H1 H2 Hf;
    simpl in *; try contradiction.
  apply NoDup_cons in Hnodup as [Hhead Htail].
  rewrite list_elem_of_In in Hhead.
  destruct H1 as [[= <- <-]|H1], H2 as [[= <- <-]|H2].
  - reflexivity.
  - exfalso. apply Hhead. rewrite Hf.
    apply in_map, (in_combine_l _ _ _ _ H2).
  - exfalso. apply Hhead. rewrite <- Hf.
    apply in_map, (in_combine_l _ _ _ _ H1).
  - exact (IH l' a b a' b' Htail H1 H2 Hf).
Qed.

(** With header names that stay distinct once normalised, the dictionary of
    a row at least as long as the header lists the columns in order. *)
Lemma dict_row_distinct fieldnames row name x :
  (length fieldnames <= length row)%nat ->
  NoDup (map normalize fieldnames) ->
  In (Some name, x) (dict_row fieldnames row) ->
  exists field, In (name, field) (combine fieldnames row) /\ x = VStr field.
Proof.
  intros Hlen Hnodup. rewrite dict_row_unfold. cbv zeta.
  assert (Hkeys : NoDup (map fst (combine fieldnames row))).
  { rewrite fst_combine by exact Hlen.
    exact (NoDup_fmap_1 normalize fieldnames Hnodup). }
  rewrite (fold_set_field_fresh _ [] Hkeys) by (intros ? ? []).
  simpl.
  set (d := map (fun '(k, v) => (Some k, VStr v)) (combine fieldnames row)).
  assert (Hd : In (Some name, x) d ->
               exists field, In (name, field) (combine fieldnames row)
                             /\ x = VStr field).
  { subst d. rewrite in_map_iff. intros ([k v] & [= -> <-] & Hin). eauto. }
  destruct (length fieldnames <? length row)%nat.
  - rewrite dict_set_fresh.
    + rewrite in_app_iff. intros [H|[[=]|[]]]. exact (Hd H).
    + subst d. rewrite map_map, in_map_iff. intros ([k v] & [=] & _).
  - destruct (length row <? length fieldnames)%nat eqn:Hlt; [|exact Hd].
    apply Nat.ltb_lt in Hlt. lia.
Qed.

(** C8, the claim as stated, refuted: a configured name that differs from
    the header name by a leading space only is not matched, because the
    configured names are lowercased and not trimmed. *)
Lemma untrimmed_target_counterexample :
  ~ (forall col, target_col_date col = normalize col)
  /\ ~ (forall fieldnames row col name field,
          length fieldnames = length row ->
          In (name, field) (combine fieldnames row) ->
          name <> "" ->
          normalize name = normalize col ->
          exists m v,
            row_clean_of (dict_row fieldnames row) = Ok m
            /\ m !! target_col_date col = Some v).
Proof.
  split.
  - intros H. specialize (H " Data"). vm_compute in H. discriminate.
  - intros H.
    destruct (H ["Assunto"; "Data"] ["Dentist"; "20/05/2024"] " Data" "Data"
                "20/05/2024") as (m & v & Hm & Hv).
    + reflexivity.
    + simpl. auto.
    + discriminate.
    + vm_compute. reflexivity.
    + assert (Hrow : row_clean_of (dict_row ["Assunto"; "Data"]
                                          ["Dentist"; "20/05/2024"])
                     = Ok (<["data" := "20/05/2024"]>
                             (<["assunto" := "Dentist"]> ∅)))
        by reflexivity.
      rewrite Hrow in Hm. injection Hm as <-.
      change (target_col_date " Data") with " data" in Hv.
      rewrite !lookup_insert_ne, lookup_empty in Hv by discriminate.
      discriminate.
Qed.

Lemma dict_set_from d k v k' x :
  In (k', x) (dict_set d k v) -> (k' = k /\ x = v) \/ In (k', x) d.
Proof.
  induction d as [|[k0 v0] rest IH]; simpl.
  - intros [[= <- <-]|[]]. auto.
  - destruct (decide (k0 = k)) as [->|Hne]; simpl.
    + intros [[= <- <-]|H]; auto.
    + intros [[= <- <-]|H]; auto. destruct (IH H); auto.
Qed.

Lemma fold_set_field_from pairs : forall d k x,
  In (k, x) (fold_left set_field pairs d) ->
  In (k, x) d
  \/ exists name field, In (name, field) pairs /\ k = Some name
                        /\ x = VStr field.
Proof.
  induction pairs as [|[n f] rest IH]; intros d k x; simpl; [auto|].
  intros H. destruct (IH _ _ _ H) as [H'|(name & field & Hin & -> & ->)].
  - destruct (dict_set_from _ _ _ _ _ H') as [[-> ->]|H'']; [|auto].
    right. exists n, f. auto.
  - right. exists name, field. auto.
Qed.

Lemma fold_set_none_from names : forall d k x,
  In (k, x) (fold_left (fun d k => dict_set d (Some k) VNone) names d) ->
  In (k, x) d \/ exists name, In name names /\ k = Some name /\ x = VNone.
Proof.
  induction names as [|n rest IH]; intros d k x; simpl; [auto|].
  intros H. destruct (IH _ _ _ H) as [H'|(name & Hin & -> & ->)].
  - destruct (dict_set_from _ _ _ _ _ H') as [[-> ->]|H'']; [|auto].
    right. exists n. auto.
  - right. exists name. auto.
Qed.

Lemma in_skipn_in {A} (x : A) k : forall l, In x (skipn k l) -> In x l.
Proof.
  induction k as [|k IH]; intros [|a l]; simpl; auto.
Qed.

(** The keys of a row dictionary are column names, or [None]. *)
Lemma dict_row_keys fieldnames row name x :
  In (Some name, x) (dict_row fieldnames row) -> In name fieldnames.
Proof.
  rewrite dict_row_unfold. cbv zeta.
  assert (Hd : forall y, In (Some name, y)
                            (fold_left set_field (combine fieldnames row) []) ->
                         In name fieldnames).
  { intros y H. apply fold_set_field_from in H
      as [[]|(n & f & Hin & [= ->] & _)].
    exact (in_combine_l _ _ _ _ Hin). }
  destruct (length fieldnames <? length row)%nat.
  - intros H. apply dict_set_from in H as [[[=] _]|H]. exact (Hd _ H).
  - destruct (length row <? length fieldnames)%nat; [|apply Hd].
    intros H. apply fold_set_none_from in H as [H|(n & Hin & [= ->] & _)].
    + exact (Hd _ H).
    + exact (in_skipn_in _ _ _ Hin).
Qed.


Lemma in_combine_of_left {A B} (a : A) (l : list A) : forall (l' : list B),
  (length l <= length l')%nat -> In a l -> exists b, In (a, b) (combine l l').
Proof.
  induction l as [|x l IH]; intros l' Hlen Hin; [destruct Hin|].
  destruct l' as [|y l']; simpl in Hlen; [lia|].
  destruct Hin as [->|Hin]; [exists y; left; reflexivity|].
  destruct (IH l') as [b Hb]; [lia|exact Hin|].
  exists b. right. exact Hb.
Qed.

(** Cleaning leaves a key alone when no named item normalises to it; an
    item whose name is empty is passed over. *)
Lemma row_clean_from_untouched items : forall acc m key,
  row_clean_from items acc = Ok m ->
  (forall name x, In (Some name, x) items -> name <> "" ->
                  normalize name <> key) ->
  m !! key = acc !! key.
Proof.
  induction items as [|[k x0] rest IH]; intros acc m key Hrun Hno;
    simpl in Hrun.
  - injection Hrun as <-. reflexivity.
  - assert (Hno' : forall name x, In (Some name, x) rest -> name <> "" ->
                     normalize name <> key)
      by (intros name x Hin; apply (Hno name x); right; exact Hin).
    destruct k as [[|c name]|]; simpl in Hrun.
    + exact (IH _ _ _ Hrun Hno').
    + destruct x0 as [s| |]; try discriminate.
      rewrite (IH _ _ _ Hrun Hno').
      apply lookup_insert_ne.
      apply (Hno (String c name) (VStr s)); [left; reflexivity|discriminate].
    + exact (IH _ _ _ Hrun Hno').
Qed.

(** A column whose header name is empty is left out of the cleaned row:
    nothing is found under the empty name. *)
Lemma column_without_a_name_is_dropped :
  row_clean_of (dict_row ["Assunto"; ""] ["Dentist"; "20/05/2024"])
  = Ok (<["assunto" := "Dentist"]> ∅)
  /\ (<["assunto" := "Dentist"]> (∅ : gmap string string))
       !! target_col_date "" = None.
Proof.
  split; [reflexivity|].
  change (target_col_date "") with "".
  rewrite lookup_insert_ne, lookup_empty by discriminate. reflexivity.
Qed.

(** C8, amended.  The keys of a cleaned row are the header names trimmed
    and lowercased, a column whose header name is empty being left out; the
    configured names are lowercased only.  So, for a row at least as long as
    the header, a value is found under the configured name exactly when some
    column with a non-empty header name has its trimmed, lowercased name
    equal to the lowercased configured name; in particular when the two
    differ only in letter case or in whitespace around the header name.
    When the header names stay distinct once normalised, the value found is
    the trimmed field of that column. *)
Theorem column_found_up_to_case_and_header_spaces fieldnames row col :
  (length fieldnames <= length row)%nat ->
  target_col_subj col = Text.lower col
  /\ target_col_date col = Text.lower col
  /\ (Text.strip col = col -> Text.lower col = normalize col)
  /\ exists m,
       row_clean_of (dict_row fieldnames row) = Ok m
       /\ (is_Some (m !! Text.lower col)
           <-> exists name, In name fieldnames /\ name <> ""
                            /\ normalize name = Text.lower col)
       /\ (NoDup (map normalize fieldnames) ->
           forall name field,
             In (name, field) (combine fieldnames row) ->
             name <> "" ->
             normalize name = Text.lower col ->
             m !! Text.lower col = Some (Text.strip field)).
Proof.
  intros Hlen.
  split; [reflexivity|]. split; [reflexivity|].
  split; [intros Hs; unfold normalize; rewrite Hs; reflexivity|].
  destruct (dict_row_long_enough fieldnames row Hlen) as [Hstr Hkeys].
  destruct (row_clean_from_ok (dict_row fieldnames row) ∅ Hstr) as [m Hm].
  exists m. split; [exact Hm|].
  assert (Hitem : forall name field,
             In (name, field) (combine fieldnames row) ->
             exists x, In (Some name, x) (dict_row fieldnames row)).
  { intros name field Hin.
    specialize (Hkeys name field Hin). apply in_map_iff in Hkeys.
    destruct Hkeys as ([k x] & Hk & Hx). simpl in Hk. subst k. eauto. }
  split; [split|].
  - intros Hsome.
    destruct (decide (Exists (fun name => name <> ""
                                          /\ normalize name = Text.lower col)
                             fieldnames)) as [Hex|Hnone].
    + apply Exists_exists in Hex as (name & Hin & Hne & Hnorm).
      exists name. split; [apply list_elem_of_In; exact Hin|]. auto.
    + exfalso.
      assert (Hnot : m !! Text.lower col = None).
      { unfold row_clean_of in Hm.
        rewrite (row_clean_from_untouched _ _ _ (Text.lower col) Hm);
          [apply lookup_empty|].
        intros name x Hin Hne Hnorm. apply Hnone.
        apply Exists_exists. exists name.
        split; [apply list_elem_of_In; exact (dict_row_keys _ _ _ _ Hin)|].
        auto. }
      rewrite Hnot in Hsome. destruct Hsome as [v Hv]. discriminate.
  - intros (name & Hin & Hne & Hnorm).
    destruct (in_combine_of_left name fieldnames row Hlen Hin) as [field Hc].
    destruct (Hitem name field Hc) as [x Hx].
    apply (row_clean_from_finds _ _ _ _ Hm). right. eauto 6.
  - intros Hnodup name field Hin Hname Hnorm.
    destruct (Hitem name field Hin) as [x Hx].
    apply (row_clean_from_exact _ field _ _ _ Hm).
    + intros name' x' Hin' Hne' Hkey'.
      destruct (dict_row_distinct _ _ _ _ Hlen Hnodup Hin')
        as (field' & Hc' & ->).
      f_equal.
      apply (combine_unique normalize fieldnames row name' field' name field);
        [|assumption|assumption|congruence].
      exact Hnodup.
    + right. exists name.
      destruct (dict_row_distinct _ _ _ _ Hlen Hnodup Hx)
        as (field' & Hc' & ->).
      assert (field' = field).
      { apply (combine_unique normalize fieldnames row name field' name field);
          auto. }
      subst field'. auto.
Qed.

Lemma column_found_up_to_case_and_header_spaces_witness :
  exists m,
    row_clean_of (dict_row [" ASSUNTO "; "data  "] ["Dentist"; " 20/05/2024 "])
    = Ok m
    /\ is_Some (m !! Text.lower "Data")
    /\ m !! Text.lower "Data" = Some "20/05/2024".
Proof.
  destruct (column_found_up_to_case_and_header_spaces
              [" ASSUNTO "; "data  "] ["Dentist"; " 20/05/2024 "] "Data")
    as (_ & _ & _ & m & Hm & Hfound & Hv).
  - simpl. lia.
  - exists m. split; [exact Hm|]. split.
    + apply Hfound. exists "data  ".
      split; [simpl; auto|]. split; [discriminate|].
      vm_compute. reflexivity.
    + rewrite (Hv ltac:(apply (bool_decide_unpack _); vm_compute; exact I)
                  "data  " " 20/05/2024 ").
      * vm_compute. reflexivity.
      * simpl. auto.
      * discriminate.
      * vm_compute. reflexivity.
Defined.

(** A row at least as long as the header never raises: it ends in one of
    the three outcomes. *)
Lemma long_enough_row_has_outcome target_subj target_date ds fieldnames row :
  (length fieldnames <= length row)%nat ->
  exists o,
    row_outcome target_subj target_date ds (dict_row fieldnames row) = Ok o.
Proof.
  intros Hlen. unfold row_outcome, row_clean_of.
  destruct (dict_row_long_enough fieldnames row Hlen) as [Hstr _].
  destruct (row_clean_from_ok (dict_row fieldnames row) ∅ Hstr) as [m ->].
  destruct (m !! target_date) as [[|c d]|]; eauto.
  destruct (parse_date (String c d)) as [[dt|]|e] eqn:Hp; eauto.
  exfalso. exact (parse_date_never_raises _ _ Hp).
Qed.

(** * Further properties *)

(** ** What [parse_date] accepts *)

Lemma append_length a b :
  String.length (a +:+ b) = (String.length a + String.length b)%nat.
Proof. induction a as [|c a IH]; simpl; [reflexivity|]. rewrite IH. reflexivity. Qed.

Lemma consumed_one c r : consumed 1 1 (String c r) r.
Proof. exists (String c EmptyString). simpl. split; [reflexivity|lia]. Qed.

Lemma consumed_two c1 c2 r : consumed 2 2 (String c1 (String c2 r)) r.
Proof.
  exists (String c1 (String c2 EmptyString)). simpl. split; [reflexivity|lia].
Qed.

Lemma consumed_weaken lo hi lo' hi' s r :
  consumed lo hi s r -> (lo' <= lo)%nat -> (hi <= hi')%nat ->
  consumed lo' hi' s r.
Proof. intros (pre & -> & H) ? ?. exists pre. split; [reflexivity|lia]. Qed.

Lemma two_consumes p1 p2 s v r :
  In (v, r) (Strptime.two p1 p2 s) -> consumed 2 2 s r.
Proof.
  unfold Strptime.two. destruct s as [|c1 [|c2 r']]; try contradiction.
  destruct (p1 c1 && p2 c2); [|contradiction].
  intros [[= _ <-]|[]]. apply consumed_two.
Qed.

Lemma one_consumes p s v r :
  In (v, r) (Strptime.one p s) -> consumed 1 1 s r.
Proof.
  unfold Strptime.one. destruct s as [|c r']; try contradiction.
  destruct (p c); [|contradiction].
  intros [[= _ <-]|[]]. apply consumed_one.
Qed.

Lemma spaced_consumes s v r :
  In (v, r) (Strptime.spaced s) -> consumed 2 2 s r.
Proof.
  unfold Strptime.spaced. destruct s as [|c1 [|c2 r']]; try contradiction.
  destruct (Ascii.eqb c1 " " && Strptime.between "1" "9" c2); [|contradiction].
  intros [[= _ <-]|[]]. apply consumed_two.
Qed.

Lemma re_d_consumes s v r : In (v, r) (Strptime.re_d s) -> consumed 1 2 s r.
Proof.
  unfold Strptime.re_d. rewrite !in_app_iff.
  intros [H|[H|[H|[H|H]]]].
  - apply two_consumes in H. apply (consumed_weaken _ _ _ _ _ _ H); lia.
  - apply two_consumes in H. apply (consumed_weaken _ _ _ _ _ _ H); lia.
  - apply two_consumes in H. apply (consumed_weaken _ _ _ _ _ _ H); lia.
  - apply one_consumes in H. apply (consumed_weaken _ _ _ _ _ _ H); lia.
  - apply spaced_consumes in H. apply (consumed_weaken _ _ _ _ _ _ H); lia.
Qed.

Lemma re_m_consumes s v r : In (v, r) (Strptime.re_m s) -> consumed 1 2 s r.
Proof.
  unfold Strptime.re_m. rewrite !in_app_iff.
  intros [H|[H|H]].
  - apply two_consumes in H. apply (consumed_weaken _ _ _ _ _ _ H); lia.
  - apply two_consumes in H. apply (consumed_weaken _ _ _ _ _ _ H); lia.
  - apply one_consumes in H. apply (consumed_weaken _ _ _ _ _ _ H); lia.
Qed.

Lemma re_Y_shape s v r :
  In (v, r) (Strptime.re_Y s) ->
  exists c1 c2 c3 c4,
    s = String c1 (String c2 (String c3 (String c4 r)))
    /\ is_digit c1 = true /\ is_digit c2 = true
    /\ is_digit c3 = true /\ is_digit c4 = true.
Proof.
  unfold Strptime.re_Y, is_digit.
  destruct s as [|c1 [|c2 [|c3 [|c4 r']]]]; try contradiction.
  destruct (Strptime.between "0" "9" c1) eqn:H1; [|contradiction].
  destruct (Strptime.between "0" "9" c2) eqn:H2; [|contradiction].
  destruct (Strptime.between "0" "9" c3) eqn:H3; [|contradiction].
  destruct (Strptime.between "0" "9" c4) eqn:H4; [|contradiction].
  intros [[= _ <-]|[]]. exists c1, c2, c3, c4. auto.
Qed.

Lemma candidates_consume i acc s f r :
  In (f, r) (Strptime.candidates i acc s) ->
  consumed (item_min i) (item_max i) s r.
Proof.
  destruct i as [c| | |]; simpl.
  - destruct s as [|c' r']; [contradiction|].
    destruct (Ascii.eqb (Text.lower_char c) (Text.lower_char c'));
      [|contradiction].
    intros [[= _ <-]|[]]. apply consumed_one.
  - rewrite in_map_iff. intros ([v r0] & [= _ <-] & Hin).
    exact (re_d_consumes _ _ _ Hin).
  - rewrite in_map_iff. intros ([v r0] & [= _ <-] & Hin).
    exact (re_m_consumes _ _ _ Hin).
  - rewrite in_map_iff. intros ([v r0] & [= _ <-] & Hin).
    destruct (re_Y_shape _ _ _ Hin) as (c1 & c2 & c3 & c4 & -> & _).
    exists (String c1 (String c2 (String c3 (String c4 EmptyString)))).
    simpl. split; [reflexivity|lia].
Qed.

Lemma append_assoc a b c : (a +:+ b) +:+ c = a +:+ (b +:+ c).
Proof.
  induction a as [|x a IH]; [reflexivity|].
  change (String x ((a +:+ b) +:+ c) = String x (a +:+ (b +:+ c))).
  f_equal. exact IH.
Qed.

Lemma matches_consume p : forall acc s f r,
  In (f, r) (Strptime.matches p acc s) ->
  consumed (min_len p) (max_len p) s r.
Proof.
  induction p as [|i p IH]; intros acc s f r; simpl.
  - intros [[= _ <-]|[]]. exists EmptyString. simpl.
    split; [reflexivity|lia].
  - rewrite in_flat_map. intros ([acc' r'] & Hc & Hm).
    destruct (candidates_consume _ _ _ _ _ Hc) as (pre1 & -> & H1).
    destruct (IH _ _ _ _ Hm) as (pre2 & -> & H2).
    exists (pre1 +:+ pre2). rewrite append_assoc, append_length.
    simpl. split; [reflexivity|lia].
Qed.

Lemma append_empty_r s : s +:+ EmptyString = s.
Proof.
  induction s as [|c s IH]; [reflexivity|].
  change (String c (s +:+ EmptyString) = String c s). f_equal. exact IH.
Qed.

Lemma strptime_length data_string format p dt :
  Strptime.compile format = Some p ->
  Strptime.strptime data_string format = Ok dt ->
  (min_len p <= String.length data_string <= max_len p)%nat.
Proof.
  intros Hc. unfold Strptime.strptime. rewrite Hc.
  destruct (Strptime.matches p Strptime.nothing data_string)
    as [|[f rest] tl] eqn:Hm; [discriminate|].
  destruct rest; [|discriminate]. intros _.
  assert (Hin : In (f, EmptyString)
                   (Strptime.matches p Strptime.nothing data_string))
    by (rewrite Hm; left; reflexivity).
  destruct (matches_consume _ _ _ _ _ Hin) as (pre & -> & H).
  rewrite append_empty_r. exact H.
Qed.

(** X1. Whatever text [parse_date] accepts has between 8 and 10 characters
    and denotes a date of the calendar, from year 1 to year 9999, with a
    month from 1 to 12 and a day that exists in that month of that year; the
    instant returned is that date at midnight. *)
Theorem parse_date_accepts_only_calendar_dates date_str dt :
  parse_date date_str = Ok (Some dt) ->
  (8 <= String.length date_str <= 10)%nat
  /\ 1 <= year dt <= 9999
  /\ 1 <= month dt <= 12
  /\ 1 <= day dt <= days_in_month (year dt) (month dt)
  /\ (hour dt, minute dt, second dt, microsecond dt) = (0, 0, 0, 0).
Proof.
  intros Hp.
  destruct (parse_date_midnight _ _ Hp) as (Hwf & -> & -> & -> & ->).
  apply parse_date_loop_some in Hp as (fmt & Hin & Hs).
  split.
  - simpl in Hin. destruct Hin as [<-|[<-|[]]].
    + exact (strptime_length _ "%d/%m/%Y" _ _ eq_refl Hs).
    + exact (strptime_length _ "%Y-%m-%d" _ _ eq_refl Hs).
  - destruct Hwf as [Hd _]. unpack_checks. repeat split; lia.
Qed.

Lemma parse_date_accepts_only_calendar_dates_witness :
  parse_date "29/02/2024" = Ok (Some (mkDatetime 2024 2 29 0 0 0 0))
  /\ 29 <= days_in_month 2024 2.
Proof.
  assert (H : parse_date "29/02/2024" = Ok (Some (mkDatetime 2024 2 29 0 0 0 0)))
    by (vm_compute; reflexivity).
  split; [exact H|].
  destruct (parse_date_accepts_only_calendar_dates _ _ H)
    as (_ & _ & _ & [_ Hd] & _).
  exact Hd.
Defined.

Lemma slash_only c :
  Ascii.eqb (Text.lower_char "/") (Text.lower_char c) = true -> c = "/"%char.
Proof.
  destruct c as [[] [] [] [] [] [] [] []]; vm_compute; intros H;
    first [reflexivity | discriminate H].
Qed.

Lemma dash_only c :
  Ascii.eqb (Text.lower_char "-") (Text.lower_char c) = true -> c = "-"%char.
Proof.
  destruct c as [[] [] [] [] [] [] [] []]; vm_compute; intros H;
    first [reflexivity | discriminate H].
Qed.

(** A text the day/month/year layout matches has a slash in second or
    third place. *)
Lemma dmy_match_shape acc s f r :
  In (f, r) (Strptime.matches
               [Strptime.Day; Strptime.Lit "/"; Strptime.Month;
                Strptime.Lit "/"; Strptime.Year] acc s) ->
  exists pre rest,
    s = pre +:+ String "/" rest /\ (1 <= String.length pre <= 2)%nat.
Proof.
  cbn [Strptime.matches]. rewrite in_flat_map.
  intros ([acc1 r1] & Hday & Hrest).
  destruct (candidates_consume _ _ _ _ _ Hday) as (pre & -> & Hlen).
  simpl in Hlen. rewrite in_flat_map in Hrest.
  destruct Hrest as ([acc2 r2] & Hlit & _).
  destruct r1 as [|c r1']; cbn [Strptime.candidates] in Hlit;
    [contradiction|].
  destruct (Ascii.eqb (Text.lower_char "/") (Text.lower_char c)) eqn:Hc;
    [|contradiction].
  apply slash_only in Hc. subst c. eauto.
Qed.

(** A text the year-month-day layout matches starts with four digits. *)
Lemma ymd_match_shape acc s f r :
  In (f, r) (Strptime.matches
               [Strptime.Year; Strptime.Lit "-"; Strptime.Month;
                Strptime.Lit "-"; Strptime.Day] acc s) ->
  exists c1 c2 c3 c4 rest,
    s = String c1 (String c2 (String c3 (String c4 rest)))
    /\ is_digit c1 = true /\ is_digit c2 = true
    /\ is_digit c3 = true /\ is_digit c4 = true.
Proof.
  cbn [Strptime.matches]. rewrite in_flat_map.
  intros ([acc1 r1] & Hyear & _).
  simpl in Hyear. rewrite in_map_iff in Hyear.
  destruct Hyear as ([v r0] & [= _ <-] & Hin).
  destruct (re_Y_shape _ _ _ Hin) as (c1 & c2 & c3 & c4 & -> & H).
  exists c1, c2, c3, c4, r0. auto.
Qed.

Lemma strptime_ok_match data_string format p dt :
  Strptime.compile format = Some p ->
  Strptime.strptime data_string format = Ok dt ->
  exists f, In (f, EmptyString)
               (Strptime.matches p Strptime.nothing data_string).
Proof.
  intros Hc. unfold Strptime.strptime. rewrite Hc.
  destruct (Strptime.matches p Strptime.nothing data_string)
    as [|[f rest] tl]; [discriminate|].
  destruct rest; [|discriminate]. intros _. exists f. left. reflexivity.
Qed.

Lemma layouts_exclude_each_other date_str dt1 dt2 :
  Strptime.strptime date_str "%d/%m/%Y" = Ok dt1 ->
  Strptime.strptime date_str "%Y-%m-%d" = Ok dt2 ->
  False.
Proof.
  intros H1 H2.
  destruct (strptime_ok_match _ "%d/%m/%Y" _ _ eq_refl H1) as [f1 Hm1].
  destruct (strptime_ok_match _ "%Y-%m-%d" _ _ eq_refl H2) as [f2 Hm2].
  destruct (dmy_match_shape _ _ _ _ Hm1) as (pre & rest & Hs & Hlen).
  destruct (ymd_match_shape _ _ _ _ Hm2)
    as (c1 & c2 & c3 & c4 & rest' & Hs' & _ & Hd2 & Hd3 & _).
  rewrite Hs in Hs'.
  destruct pre as [|a [|b [|c pre]]]; simpl in Hlen, Hs'; try lia.
  - injection Hs' as _ <- _. vm_compute in Hd2. discriminate.
  - injection Hs' as _ _ <- _. vm_compute in Hd3. discriminate.
Qed.

(** X2. A text that [parse_date] accepts is parsed by exactly one of the
    two layouts, the other one rejecting it: the order in which the layouts
    are tried never decides the result. *)
Theorem accepted_text_has_one_layout date_str dt :
  parse_date date_str = Ok (Some dt) ->
  (Strptime.strptime date_str "%d/%m/%Y" = Ok dt
   /\ Strptime.strptime date_str "%Y-%m-%d" = Raise ValueError)
  \/ (Strptime.strptime date_str "%d/%m/%Y" = Raise ValueError
      /\ Strptime.strptime date_str "%Y-%m-%d" = Ok dt).
Proof.
  unfold parse_date. simpl.
  destruct (Strptime.strptime date_str "%d/%m/%Y") as [d1|e1] eqn:H1.
  - intros [= ->]. left. split; [reflexivity|].
    destruct (Strptime.strptime date_str "%Y-%m-%d") as [d2|e2] eqn:H2.
    + destruct (layouts_exclude_each_other _ _ _ H1 H2).
    + apply strptime_only_value_error in H2 as ->. reflexivity.
  - apply strptime_only_value_error in H1 as ->.
    destruct (Strptime.strptime date_str "%Y-%m-%d") as [d2|e2] eqn:H2.
    + intros [= ->]. right. split; reflexivity.
    + apply strptime_only_value_error in H2 as ->. discriminate.
Qed.

Lemma accepted_text_has_one_layout_witness :
  Strptime.strptime "2024-03-15" "%d/%m/%Y" = Raise ValueError
  /\ Strptime.strptime "2024-03-15" "%Y-%m-%d"
     = Ok (mkDatetime 2024 3 15 0 0 0 0).
Proof.
  destruct (accepted_text_has_one_layout "2024-03-15"
              (mkDatetime 2024 3 15 0 0 0 0)) as [[H _]|H].
  - vm_compute. reflexivity.
  - vm_compute in H. discriminate H.
  - exact H.
Defined.

(** ** Dates written with leading zeros *)

Lemma code_chr n : 0 <= n < 256 -> Text.code (Text.chr n) = n.
Proof.
  intros H. unfold Text.code, Text.chr.
  rewrite N_ascii_embedding by lia. lia.
Qed.

Lemma digit_char_code k : Text.code (Text.digit_char k) = 48 + k mod 10.
Proof.
  unfold Text.digit_char. apply code_chr.
  pose proof (Z.mod_pos_bound k 10). lia.
Qed.

Lemma digit_char_is_digit k : is_digit (Text.digit_char k) = true.
Proof.
  unfold is_digit, Strptime.between. rewrite digit_char_code.
  change (Text.code "0") with 48. change (Text.code "9") with 57.
  pose proof (Z.mod_pos_bound k 10).
  apply andb_true_iff. split; apply Z.leb_le; lia.
Qed.

Lemma digit_char_dval k : Strptime.dval (Text.digit_char k) = k mod 10.
Proof. unfold Strptime.dval. rewrite digit_char_code. lia. Qed.

Lemma re_Y_pad4 y rest :
  0 <= y <= 9999 ->
  Strptime.re_Y (Text.pad4 y +:+ rest) = [(y, rest)].
Proof.
  intros Hy.
  change (Text.pad4 y +:+ rest)
    with (String (Text.digit_char (y / 1000))
            (String (Text.digit_char (y / 100))
               (String (Text.digit_char (y / 10))
                  (String (Text.digit_char y) rest)))).
  unfold Strptime.re_Y.
  pose proof digit_char_is_digit as Hd. unfold is_digit in Hd.
  rewrite !Hd. cbn [andb]. rewrite !digit_char_dval.
  f_equal. f_equal. Z.to_euclidean_division_equations. lia.
Qed.

(** Case analysis on an integer between 0 and a small bound. *)
Ltac peel n tac :=
  destruct n as [|n]; [try lia; tac | first [lia | peel n tac]].

Ltac small_cases d bound tac :=
  let n := fresh "n" in
  let Hn := fresh "Hn" in
  let Hd := fresh "Hd" in
  assert (Hd : d = Z.of_nat (Z.to_nat d)) by lia;
  assert (Hn : (Z.to_nat d <= bound)%nat) by lia;
  revert Hd Hn; generalize (Z.to_nat d); intros n Hd Hn; subst d;
  peel n tac.

Lemma candidates_day d acc rest :
  1 <= d <= 31 ->
  exists tl,
    Strptime.candidates Strptime.Day acc (Text.pad2 d +:+ rest)
    = (Strptime.mkFound (Strptime.f_year acc) (Strptime.f_month acc) (Some d),
       rest) :: tl.
Proof.
  intros H. small_cases d 31%nat ltac:(eexists; reflexivity).
Qed.

Lemma candidates_month m acc rest :
  1 <= m <= 12 ->
  exists tl,
    Strptime.candidates Strptime.Month acc (Text.pad2 m +:+ rest)
    = (Strptime.mkFound (Strptime.f_year acc) (Some m) (Strptime.f_day acc),
       rest) :: tl.
Proof.
  intros H. small_cases m 12%nat ltac:(eexists; reflexivity).
Qed.

Lemma candidates_year y acc rest :
  0 <= y <= 9999 ->
  Strptime.candidates Strptime.Year acc (Text.pad4 y +:+ rest)
  = [(Strptime.mkFound (Some y) (Strptime.f_month acc) (Strptime.f_day acc),
      rest)].
Proof.
  intros H. cbn [Strptime.candidates]. rewrite (re_Y_pad4 _ _ H). reflexivity.
Qed.

Lemma candidates_lit c acc rest :
  Strptime.candidates (Strptime.Lit c) acc (String c rest) = [(acc, rest)].
Proof. cbn [Strptime.candidates]. rewrite Ascii.eqb_refl. reflexivity. Qed.

Lemma matches_step i p acc s acc' r tl x :
  Strptime.candidates i acc s = (acc', r) :: tl ->
  (exists tl', Strptime.matches p acc' r = x :: tl') ->
  exists tl'', Strptime.matches (i :: p) acc s = x :: tl''.
Proof.
  intros Hc [tl' Hm]. cbn [Strptime.matches]. rewrite Hc.
  cbn [flat_map]. rewrite Hm. simpl. eauto.
Qed.

Lemma dmy_text_matches y m d :
  check_date_fields y m d = true ->
  exists tl,
    Strptime.matches
      [Strptime.Day; Strptime.Lit "/"; Strptime.Month; Strptime.Lit "/";
       Strptime.Year] Strptime.nothing (dmy_text y m d)
    = (Strptime.mkFound (Some y) (Some m) (Some d), EmptyString) :: tl.
Proof.
  intros Hc. unpack_checks.
  assert (Hd : 1 <= d <= 31).
  { unfold days_in_month in *.
    destruct (m =? 2); [destruct (is_leap y)|
                        destruct ((m =? 4) || (m =? 6) || (m =? 9) || (m =? 11))];
      lia. }
  unfold dmy_text.
  destruct (candidates_day d Strptime.nothing
              ("/" +:+ Text.pad2 m +:+ "/" +:+ Text.pad4 y) Hd) as [tl1 Hday].
  eapply matches_step; [exact Hday|].
  eapply matches_step; [apply candidates_lit|].
  destruct (candidates_month m (Strptime.mkFound None None (Some d))
              ("/" +:+ Text.pad4 y)) as [tl2 Hmonth]; [lia|].
  eapply matches_step; [exact Hmonth|].
  eapply matches_step; [apply candidates_lit|].
  rewrite <- (append_empty_r (Text.pad4 y)).
  eapply matches_step; [apply candidates_year; lia|].
  eexists. reflexivity.
Qed.

Lemma ymd_text_matches y m d :
  check_date_fields y m d = true ->
  exists tl,
    Strptime.matches
      [Strptime.Year; Strptime.Lit "-"; Strptime.Month; Strptime.Lit "-";
       Strptime.Day] Strptime.nothing (ymd_text y m d)
    = (Strptime.mkFound (Some y) (Some m) (Some d), EmptyString) :: tl.
Proof.
  intros Hc. unpack_checks.
  assert (Hd : 1 <= d <= 31).
  { unfold days_in_month in *.
    destruct (m =? 2); [destruct (is_leap y)|
                        destruct ((m =? 4) || (m =? 6) || (m =? 9) || (m =? 11))];
      lia. }
  unfold ymd_text.
  eapply matches_step; [apply candidates_year; lia|].
  eapply matches_step; [apply candidates_lit|].
  destruct (candidates_month m (Strptime.mkFound (Some y) None None)
              ("-" +:+ Text.pad2 d)) as [tl2 Hmonth]; [lia|].
  eapply matches_step; [exact Hmonth|].
  eapply matches_step; [apply candidates_lit|].
  destruct (candidates_day d (Strptime.mkFound (Some y) (Some m) None)
              EmptyString Hd) as [tl1 Hday].
  rewrite append_empty_r in Hday.
  eapply matches_step; [exact Hday|].
  eexists. reflexivity.
Qed.

Lemma strptime_of_match data_string format p y m d tl :
  Strptime.compile format = Some p ->
  Strptime.matches p Strptime.nothing data_string
  = (Strptime.mkFound (Some y) (Some m) (Some d), EmptyString) :: tl ->
  check_date_fields y m d = true ->
  Strptime.strptime data_string format = Ok (mkDatetime y m d 0 0 0 0).
Proof.
  intros Hc Hm Hf. unfold Strptime.strptime. rewrite Hc, Hm.
  cbv beta iota.
  change (default 1900 (Strptime.f_year
            (Strptime.mkFound (Some y) (Some m) (Some d)))) with y.
  change (default 1 (Strptime.f_month
            (Strptime.mkFound (Some y) (Some m) (Some d)))) with m.
  change (default 1 (Strptime.f_day
            (Strptime.mkFound (Some y) (Some m) (Some d)))) with d.
  unfold Datetime.new. rewrite Hf. reflexivity.
Qed.

(** X3. Every date of the calendar between the years 1 and 9999, written
    with leading zeros as DD/MM/YYYY or as YYYY-MM-DD, is accepted by
    [parse_date] and interpreted as that date at midnight. *)
Theorem canonical_dates_are_accepted y m d :
  check_date_fields y m d = true ->
  parse_date (dmy_text y m d) = Ok (Some (mkDatetime y m d 0 0 0 0))
  /\ parse_date (ymd_text y m d) = Ok (Some (mkDatetime y m d 0 0 0 0)).
Proof.
  intros Hc.
  destruct (dmy_text_matches y m d Hc) as [tl1 H1].
  destruct (ymd_text_matches y m d Hc) as [tl2 H2].
  pose proof (strptime_of_match _ "%d/%m/%Y" _ _ _ _ _ eq_refl H1 Hc) as Hdmy.
  pose proof (strptime_of_match _ "%Y-%m-%d" _ _ _ _ _ eq_refl H2 Hc) as Hymd.
  unfold parse_date. cbn [parse_date_loop]. split.
  - rewrite Hdmy. reflexivity.
  - destruct (Strptime.strptime (ymd_text y m d) "%d/%m/%Y") as [dt|e] eqn:He.
    + destruct (layouts_exclude_each_other _ _ _ He Hymd).
    + apply strptime_only_value_error in He as ->. rewrite Hymd. reflexivity.
Qed.

Lemma canonical_dates_are_accepted_witness :
  check_date_fields 2024 2 29 = true
  /\ parse_date "29/02/2024" = Ok (Some (mkDatetime 2024 2 29 0 0 0 0))
  /\ parse_date "2024-02-29" = Ok (Some (mkDatetime 2024 2 29 0 0 0 0)).
Proof.
  assert (H : check_date_fields 2024 2 29 = true) by reflexivity.
  split; [exact H|].
  exact (canonical_dates_are_accepted 2024 2 29 H).
Defined.

(** ** The stamp format *)

Lemma format_ics_date_chars dt :
  format_ics_date dt =
  String (Text.digit_char (year dt / 1000))
    (String (Text.digit_char (year dt / 100))
    (String (Text.digit_char (year dt / 10))
    (String (Text.digit_char (year dt))
    (String (Text.digit_char (month dt / 10))
    (String (Text.digit_char (month dt))
    (String (Text.digit_char (day dt / 10))
    (String (Text.digit_char (day dt))
    (String "T"
    (String (Text.digit_char (hour dt / 10))
    (String (Text.digit_char (hour dt))
    (String (Text.digit_char (minute dt / 10))
    (String (Text.digit_char (minute dt))
    (String (Text.digit_char (second dt / 10))
    (String (Text.digit_char (second dt)) EmptyString)))))))))))))).
Proof. reflexivity. Qed.

Lemma digit_char_inj a b :
  Text.digit_char a = Text.digit_char b -> a mod 10 = b mod 10.
Proof.
  intros H. apply (f_equal Text.code) in H.
  rewrite !digit_char_code in H. lia.
Qed.

Lemma all_digits_pad2 n s : all_digits (Text.pad2 n +:+ s) = all_digits s.
Proof.
  change (all_digits (Text.pad2 n +:+ s))
    with (is_digit (Text.digit_char (n / 10))
          && (is_digit (Text.digit_char n) && all_digits s)).
  rewrite !digit_char_is_digit. reflexivity.
Qed.

Lemma all_digits_pad4 n s : all_digits (Text.pad4 n +:+ s) = all_digits s.
Proof.
  change (all_digits (Text.pad4 n +:+ s))
    with (is_digit (Text.digit_char (n / 1000))
          && (is_digit (Text.digit_char (n / 100))
              && (is_digit (Text.digit_char (n / 10))
                  && (is_digit (Text.digit_char n) && all_digits s)))).
  rewrite !digit_char_is_digit. reflexivity.
Qed.

Lemma well_formed_bounds dt :
  well_formed dt ->
  1 <= year dt <= 9999 /\ 1 <= month dt <= 12 /\ 1 <= day dt <= 31
  /\ 0 <= hour dt <= 23 /\ 0 <= minute dt <= 59 /\ 0 <= second dt <= 59.
Proof.
  intros Hwf. unpack_checks.
  assert (day dt <= 31).
  { unfold days_in_month in *.
    destruct (month dt =? 2); [destruct (is_leap (year dt))|
      destruct ((month dt =? 4) || (month dt =? 6) || (month dt =? 9)
                || (month dt =? 11))]; lia. }
  lia.
Qed.

(** X4. For instants from the year 1000 on, the stamp [format_ics_date]
    writes is eight digits, the letter T and six digits, and it determines
    the instant up to the second: two such instants get the same stamp
    exactly when they agree on year, month, day, hour, minute and second. *)
Theorem format_ics_date_shape_and_injective dt1 dt2 :
  well_formed dt1 -> well_formed dt2 ->
  1000 <= year dt1 -> 1000 <= year dt2 ->
  format_ics_date dt1 = strftime_Ymd dt1 +:+ "T" +:+ strftime_HMS dt1
  /\ String.length (strftime_Ymd dt1) = 8%nat
  /\ all_digits (strftime_Ymd dt1) = true
  /\ String.length (strftime_HMS dt1) = 6%nat
  /\ all_digits (strftime_HMS dt1) = true
  /\ (format_ics_date dt1 = format_ics_date dt2 <->
      (year dt1, month dt1, day dt1, hour dt1, minute dt1, second dt1)
      = (year dt2, month dt2, day dt2, hour dt2, minute dt2, second dt2)).
Proof.
  intros H1 H2 _ _.
  split; [reflexivity|]. split; [reflexivity|].
  split.
  { unfold strftime_Ymd. rewrite <- (append_empty_r (Text.pad2 (day dt1))).
    rewrite all_digits_pad4, !all_digits_pad2. reflexivity. }
  split; [reflexivity|].
  split.
  { unfold strftime_HMS. rewrite <- (append_empty_r (Text.pad2 (second dt1))).
    rewrite !all_digits_pad2. reflexivity. }
  split.
  - rewrite !format_ics_date_chars. intros H.
    injection H as Hy3 Hy2 Hy1 Hy0 Hm1 Hm0 Hd1 Hd0 Hh1 Hh0 Hi1 Hi0 Hs1 Hs0.
    apply digit_char_inj in Hy3, Hy2, Hy1, Hy0, Hm1, Hm0, Hd1, Hd0,
                            Hh1, Hh0, Hi1, Hi0, Hs1, Hs0.
    destruct (well_formed_bounds _ H1) as (By & Bm & Bd & Bh & Bi & Bs).
    destruct (well_formed_bounds _ H2) as (By' & Bm' & Bd' & Bh' & Bi' & Bs').
    clear H1 H2.
    assert (year dt1 = year dt2)
      by (clear - By By' Hy3 Hy2 Hy1 Hy0;
          Z.to_euclidean_division_equations; lia).
    assert (month dt1 = month dt2)
      by (clear - Bm Bm' Hm1 Hm0; Z.to_euclidean_division_equations; lia).
    assert (day dt1 = day dt2)
      by (clear - Bd Bd' Hd1 Hd0; Z.to_euclidean_division_equations; lia).
    assert (hour dt1 = hour dt2)
      by (clear - Bh Bh' Hh1 Hh0; Z.to_euclidean_division_equations; lia).
    assert (minute dt1 = minute dt2)
      by (clear - Bi Bi' Hi1 Hi0; Z.to_euclidean_division_equations; lia).
    assert (second dt1 = second dt2)
      by (clear - Bs Bs' Hs1 Hs0; Z.to_euclidean_division_equations; lia).
    congruence.
  - intros [= Hy Hm Hd Hh Hi Hs]. rewrite !format_ics_date_chars.
    rewrite Hy, Hm, Hd, Hh, Hi, Hs. reflexivity.
Qed.

Lemma format_ics_date_shape_and_injective_witness :
  well_formed (mkDatetime 2024 5 20 9 0 0 0)
  /\ well_formed (mkDatetime 2024 5 20 9 30 0 0)
  /\ format_ics_date (mkDatetime 2024 5 20 9 0 0 0)
     <> format_ics_date (mkDatetime 2024 5 20 9 30 0 0).
Proof.
  assert (H1 : well_formed (mkDatetime 2024 5 20 9 0 0 0))
    by (split; reflexivity).
  assert (H2 : well_formed (mkDatetime 2024 5 20 9 30 0 0))
    by (split; reflexivity).
  split; [exact H1|]. split; [exact H2|].
  intros Heq.
  destruct (format_ics_date_shape_and_injective _ _ H1 H2)
    as (_ & _ & _ & _ & _ & Hiff); [simpl; lia|simpl; lia|].
  apply Hiff in Heq. discriminate Heq.
Defined.

(** ** The block of any instant *)

(** X5. For every instant with fields in range, from the year 1000 on and
    whatever its time of day, the builder succeeds; its block has fourteen
    lines, opens with BEGIN:VEVENT and closes with END:VEVENT, stamps the
    reading of the clock, and places the event on the day of the instant
    from 090000 to 093000.  The call draws one identifier, reads the clock
    once, and leaves the log and the files alone. *)
Theorem block_of_any_instant E subject start_date w :
  well_formed start_date ->
  1000 <= year start_date ->
  exists block,
    generate_event_block E subject start_date w
    = (Ok block,
       mkWorld (S (uuid_calls w)) (S (now_calls w)) (log w) (fs w))
    /\ length block = 14%nat
    /\ block !! 0%nat = Some "BEGIN:VEVENT"
    /\ block !! 2%nat
       = Some ("DTSTAMP:" +:+ format_ics_date (clock_at E (now_calls w)))
    /\ block !! 3%nat
       = Some ("DTSTART;TZID=America/Sao_Paulo:"
               +:+ strftime_Ymd start_date +:+ "T090000")
    /\ block !! 4%nat
       = Some ("DTEND;TZID=America/Sao_Paulo:"
               +:+ strftime_Ymd start_date +:+ "T093000")
    /\ block !! 13%nat = Some "END:VEVENT".
Proof.
  intros Hwf _. eexists.
  split; [apply (generate_event_block_well_formed _ _ _ _ Hwf)|].
  repeat split; reflexivity.
Qed.

Lemma block_of_any_instant_witness :
  well_formed (mkDatetime 9999 12 31 23 59 59 999999)
  /\ exists block w',
       generate_event_block scenario_env "Dentist"
         (mkDatetime 9999 12 31 23 59 59 999999) scenario_world
       = (Ok block, w')
       /\ block !! 4%nat
          = Some "DTEND;TZID=America/Sao_Paulo:99991231T093000".
Proof.
  assert (Hwf : well_formed (mkDatetime 9999 12 31 23 59 59 999999))
    by (split; reflexivity).
  split; [exact Hwf|].
  destruct (block_of_any_instant scenario_env "Dentist"
              (mkDatetime 9999 12 31 23 59 59 999999) scenario_world Hwf)
    as (block & Hb & _ & _ & _ & _ & Hend & _); [simpl; lia|].
  exists block. eexists. split; [exact Hb|]. exact Hend.
Defined.

(** ** The log of the loop *)

Lemma process_row_log E cs cd ds row p w :
  log (snd (process_row E cs cd ds row p w))
  = log w ++ row_log (target_col_subj cs) (target_col_date cd) ds row.
Proof.
  unfold process_row, row_log, bind, lift.
  destruct (row_clean_of row) as [rc|e]; simpl;
    [|rewrite app_nil_r; reflexivity].
  destruct (rc !! target_col_date cd) as [[|c d]|] eqn:Hd;
    destruct (rc !! target_col_subj cs) as [[|c' s']|] eqn:Hs;
    simpl; unfold bind, logging, ret; simpl;
    rewrite <- ?app_assoc; try reflexivity.
  all: destruct (parse_date (String c d)) as [[dt|]|e] eqn:Hp; simpl;
    rewrite <- ?app_assoc, ?app_nil_r; try reflexivity.
  all: destruct (parse_date_midnight _ _ Hp) as [Hwf _];
    rewrite (generate_event_block_well_formed _ _ _ _ Hwf); simpl;
    rewrite ?app_nil_r; reflexivity.
Qed.

Lemma process_rows_log E cs cd ds fieldnames records : forall p w,
  log (snd (process_rows E cs cd ds fieldnames records p w))
  = log w ++ rows_log (target_col_subj cs) (target_col_date cd) ds
                      fieldnames records.
Proof.
  induction records as [|[row|e] rest IH]; intros p w.
  - simpl. rewrite app_nil_r. reflexivity.
  - destruct row as [|f row]; [simpl; apply IH|].
    cbn [process_rows rows_log]. unfold bind.
    pose proof (process_row_log E cs cd ds (dict_row fieldnames (f :: row))
                  p w) as Hlog.
    pose proof (process_row_spec E cs cd ds (dict_row fieldnames (f :: row))
                  p w) as Hrow.
    cbv zeta in Hrow.
    destruct (process_row E cs cd ds (dict_row fieldnames (f :: row)) p w)
      as [r w1].
    simpl in Hlog, Hrow. destruct Hrow as (Hr & _).
    destruct (row_outcome (target_col_subj cs) (target_col_date cd) ds
                (dict_row fieldnames (f :: row))) as [o|e]; subst r.
    + assert (Hnext : forall p', log (snd (process_rows E cs cd ds fieldnames
                                             rest p' w1))
                = log w ++ row_log (target_col_subj cs) (target_col_date cd)
                             ds (dict_row fieldnames (f :: row))
                  ++ rows_log (target_col_subj cs) (target_col_date cd) ds
                       fieldnames rest)
        by (intros p'; rewrite IH, Hlog, app_assoc; reflexivity).
      destruct o; apply Hnext.
    + simpl. rewrite Hlog, app_nil_r. reflexivity.
  - simpl. rewrite app_nil_r. reflexivity.
Qed.

Lemma count_log_app f a b :
  count_log f (a ++ b) = (count_log f a + count_log f b)%nat.
Proof. unfold count_log. rewrite List.filter_app, length_app. reflexivity. Qed.

(** One row: an accepted row logs no skip, a skipped row logs exactly one,
    and nothing but row-level lines is logged. *)
Lemma row_log_facts ts td ds row o :
  row_outcome ts td ds row = Ok o ->
  count_log is_skip (row_log ts td ds row)
  = match o with ACCEPTED _ _ => 0%nat | _ => 1%nat end
  /\ forallb is_row_level (row_log ts td ds row) = true.
Proof.
  unfold row_outcome, row_log.
  destruct (row_clean_of row) as [rc|e]; [|discriminate].
  destruct (rc !! td) as [[|c d]|]; destruct (rc !! ts) as [[|c' s']|];
    try (intros [= <-]; split; reflexivity).
  all: destruct (parse_date (String c d)) as [[dt|]|e]; try discriminate;
    intros [= <-]; split; reflexivity.
Qed.

Lemma row_log_row_level ts td ds row :
  forallb is_row_level (row_log ts td ds row) = true.
Proof.
  unfold row_log.
  destruct (row_clean_of row) as [rc|e]; [|reflexivity].
  destruct (rc !! td) as [[|c d]|]; destruct (rc !! ts) as [[|c' s']|];
    try reflexivity.
  all: destruct (parse_date (String c d)) as [[dt|]|e]; reflexivity.
Qed.

Lemma rows_log_row_level ts td ds fieldnames records :
  forallb is_row_level (rows_log ts td ds fieldnames records) = true.
Proof.
  induction records as [|[[|f row]|e] rest IH]; simpl; try reflexivity;
    [exact IH|].
  rewrite forallb_app, row_log_row_level.
  destruct (row_outcome ts td ds (dict_row fieldnames (f :: row)));
    [exact IH|reflexivity].
Qed.

Lemma rows_log_accounts ts td ds fieldnames records : forall l,
  accepted_rows ts td ds fieldnames records = Ok l ->
  (length l + count_log is_skip (rows_log ts td ds fieldnames records))%nat
  = data_rows records.
Proof.
  induction records as [|[[|f row]|e] rest IH]; intros l; simpl.
  - intros [= <-]. reflexivity.
  - apply IH.
  - destruct (row_outcome ts td ds (dict_row fieldnames (f :: row)))
      as [o|e] eqn:Ho; [|discriminate].
    destruct (row_log_facts _ _ _ _ _ Ho) as [Hskip _].
    rewrite count_log_app, Hskip.
    destruct o as [subject dt| |].
    + destruct (accepted_rows ts td ds fieldnames rest) as [l'|e];
        [|discriminate].
      intros [= <-]. specialize (IH l' eq_refl). simpl. lia.
    + intros Hl. specialize (IH l Hl). lia.
    + intros Hl. specialize (IH l Hl). lia.
  - discriminate.
Qed.

(** X6. In a loop that runs to the end, every record that holds a row is
    accounted for exactly once: it either adds an event, or adds one skip
    line to the log (a warning for a missing date, an error for an invalid
    one).  The count of events plus the number of skip lines is the number
    of such records, and the loop logs nothing but row-level lines. *)
Theorem every_row_is_accounted_for E cs cd ds fieldnames records p w l :
  accepted_rows (target_col_subj cs) (target_col_date cd) ds fieldnames records
  = Ok l ->
  exists events entries,
    fst (process_rows E cs cd ds fieldnames records p w)
    = Ok (mkProgress events (processed_count p + length l))
    /\ log (snd (process_rows E cs cd ds fieldnames records p w))
       = log w ++ entries
    /\ forallb is_row_level entries = true
    /\ (length l + count_log is_skip entries)%nat = data_rows records.
Proof.
  intros Hacc.
  destruct (process_rows_spec E cs cd ds fieldnames records p w) as (Hr & _).
  rewrite Hacc in Hr.
  eexists. exists (rows_log (target_col_subj cs) (target_col_date cd) ds
                            fieldnames records).
  split; [exact Hr|].
  split; [apply process_rows_log|].
  split; [apply rows_log_row_level|].
  apply rows_log_accounts, Hacc.
Qed.

Lemma every_row_is_accounted_for_witness :
  exists events entries,
    fst (process_rows scenario_env "Assunto" "Data" "Evento Importado"
           ["Assunto"; "Data"] (tail scenario_records) (mkProgress [] 0)
           scenario_world)
    = Ok (mkProgress events 2)
    /\ log (snd (process_rows scenario_env "Assunto" "Data"
                   "Evento Importado" ["Assunto"; "Data"]
                   (tail scenario_records) (mkProgress [] 0) scenario_world))
       = entries
    /\ (2 + count_log is_skip entries)%nat = 4%nat.
Proof.
  destruct (every_row_is_accounted_for scenario_env "Assunto" "Data"
              "Evento Importado" ["Assunto"; "Data"] (tail scenario_records)
              (mkProgress [] 0) scenario_world
              [ ("Dentist", mkDatetime 2024 5 20 0 0 0 0);
                ("Evento Importado", mkDatetime 2024 5 21 0 0 0 0) ])
    as (events & entries & Hr & Hlog & _ & Hcount).
  - vm_compute. reflexivity.
  - exists events, entries. split; [exact Hr|]. split; [exact Hlog|].
    exact Hcount.
Defined.

(** ** Whole runs *)

Lemma read_events_spec E cs cd ds records w :
  let rows := reader_rows (target_col_subj cs) (target_col_date cd) ds
                          records in
  let rw := read_events E cs cd ds records w in
  fst rw =
    match rows with
    | Raise e => Raise e
    | Ok l =>
        Ok (mkProgress
              (concat (map entry_lines
                           (number E (uuid_calls w) (now_calls w) l)))
              (length l))
    end
  /\ fs (snd rw) = fs w
  /\ log (snd rw)
     = log w ++ reader_log (target_col_subj cs) (target_col_date cd) ds
                           records
  /\ (forall l, rows = Ok l ->
        uuid_calls (snd rw) = (uuid_calls w + length l)%nat
        /\ now_calls (snd rw) = (now_calls w + length l)%nat).
Proof.
  cbv zeta. destruct records as [|[names|e] rest]; simpl.
  - rewrite app_nil_r. split; [reflexivity|]. split; [reflexivity|].
    split; [reflexivity|]. intros l [= <-]. simpl. lia.
  - destruct (process_rows_spec E cs cd ds names rest (mkProgress [] 0) w)
      as (Hr & Hfs & _ & Hc).
    split; [exact Hr|]. split; [exact Hfs|].
    split; [apply process_rows_log|exact Hc].
  - rewrite app_nil_r. split; [reflexivity|]. split; [reflexivity|].
    split; [reflexivity|]. discriminate.
Qed.

(** X7. A run that succeeds is determined by the rows of the reader it
    settled on: with [l] the accepted rows in order, it draws [length l]
    identifiers and clock readings, logs the row-level lines followed by the
    success line with the count [length l], and writes to the output file
    the encoded CR LF join of the document of their blocks, which holds
    exactly [length l] events.  Nothing else changes. *)
Theorem successful_run E input_file output_file delimiter cs cd ds w :
  fst (process_csv_try E input_file output_file delimiter cs cd ds w) = Ok tt ->
  exists records l,
    fst (open_with_fallback E input_file delimiter w) = Ok records
    /\ reader_rows (target_col_subj cs) (target_col_date cd) ds records = Ok l
    /\ let doc :=
         generate_ics_structure
           (concat (map entry_lines
                        (number E (uuid_calls w) (now_calls w) l))) in
       process_csv E input_file output_file delimiter cs cd ds w
       = mkWorld (uuid_calls w + length l) (now_calls w + length l)
           (log w
            ++ reader_log (target_col_subj cs) (target_col_date cd) ds records
            ++ [Info_success (length l) output_file])
           (<[output_file := Text.encode_utf8 (Text.join Text.CRLF doc)]>
              (fs w))
       /\ count_line "BEGIN:VEVENT" doc = length l.
Proof.
  unfold process_csv, process_csv_try, bind.
  pose proof (open_with_fallback_world E input_file delimiter w) as Hopen.
  destruct (open_with_fallback E input_file delimiter w) as [[records|e] w1];
    simpl in Hopen; subst w1; [|discriminate].
  pose proof (read_events_spec E cs cd ds records w) as Hread.
  cbv zeta in Hread.
  destruct (read_events E cs cd ds records w) as [[p|e] w2];
    [|discriminate].
  simpl in Hread. destruct Hread as (Hr & Hfs & Hlog & Hc).
  destruct (reader_rows (target_col_subj cs) (target_col_date cd) ds records)
    as [l|e] eqn:Hrows; [|discriminate].
  injection Hr as ->. destruct (Hc l eq_refl) as [Hu Hn].
  intros _. exists records, l.
  split; [reflexivity|]. split; [exact Hrows|].
  cbv zeta. split.
  - destruct w2 as [u2 n2 l2 f2]. simpl in *. subst.
    rewrite <- app_assoc. reflexivity.
  - unfold generate_ics_structure.
    rewrite !count_line_app, count_begin_vevent.
    assert (Hlen : forall nu nn, length (number E nu nn l) = length l).
    { clear. induction l as [|[s d] l IH]; intros nu nn; simpl;
        [reflexivity|]. rewrite IH. reflexivity. }
    rewrite Hlen. simpl. lia.
Qed.

Lemma successful_run_witness :
  fst (process_csv_try scenario_env "eventos.csv" "calendario.ics" ";"
         "Assunto" "Data" "Evento Importado" scenario_world) = Ok tt
  /\ exists l : list (string * datetime),
       length l = 2%nat
       /\ uuid_calls (process_csv scenario_env "eventos.csv" "calendario.ics"
                        ";" "Assunto" "Data" "Evento Importado"
                        scenario_world)
          = length l.
Proof.
  assert (H : fst (process_csv_try scenario_env "eventos.csv"
                     "calendario.ics" ";" "Assunto" "Data" "Evento Importado"
                     scenario_world) = Ok tt) by (vm_compute; reflexivity).
  split; [exact H|].
  destruct (successful_run _ _ _ _ _ _ _ _ H)
    as (records & l & Hopen & Hrows & Hrun & _).
  exists l. split.
  - vm_compute in Hopen. injection Hopen as <-.
    vm_compute in Hrows. injection Hrows as <-. reflexivity.
  - rewrite Hrun. reflexivity.
Defined.

(** X8. Every run appends to the log row-level lines only, followed by
    exactly one closing line: the success line with the output file when
    the run succeeds, the not-found line with the input file when a
    [FileNotFoundError] ends it, and the error line carrying the exception
    otherwise. *)
Theorem run_closes_the_log_once
  E input_file output_file delimiter cs cd ds w :
  exists entries last,
    log (process_csv E input_file output_file delimiter cs cd ds w)
    = log w ++ entries ++ [last]
    /\ forallb is_row_level entries = true
    /\ is_terminal last = true
    /\ match fst (process_csv_try E input_file output_file delimiter
                                  cs cd ds w) with
       | Ok _ => exists n, last = Info_success n output_file
       | Raise FileNotFoundError => last = Critical_not_found input_file
       | Raise e => last = Critical_error e
       end.
Proof.
  unfold process_csv, process_csv_try, bind.
  pose proof (open_with_fallback_world E input_file delimiter w) as Hopen.
  destruct (open_with_fallback E input_file delimiter w) as [[records|e] w1];
    simpl in Hopen; subst w1.
  - pose proof (read_events_spec E cs cd ds records w) as Hread.
    cbv zeta in Hread.
    destruct (read_events E cs cd ds records w) as [[p|e] w2];
      simpl in Hread; destruct Hread as (_ & _ & Hlog & _).
    + exists (reader_log (target_col_subj cs) (target_col_date cd) ds records).
      eexists. simpl. rewrite Hlog, <- app_assoc.
      split; [reflexivity|].
      split; [destruct records as [|[names|?] rest]; try reflexivity;
              apply rows_log_row_level|].
      split; [reflexivity|]. eauto.
    + exists (reader_log (target_col_subj cs) (target_col_date cd) ds records).
      assert (Hrl : forallb is_row_level
                (reader_log (target_col_subj cs) (target_col_date cd) ds
                            records) = true)
        by (destruct records as [|[names|?] rest]; try reflexivity;
            apply rows_log_row_level).
      destruct e; eexists; simpl; rewrite Hlog, <- app_assoc;
        (split; [reflexivity|]); (split; [exact Hrl|]); split; reflexivity.
  - exists []. destruct e; eexists; simpl;
      (split; [reflexivity|]); (split; [reflexivity|]); split; reflexivity.
Qed.

Lemma number_length E nu nn l : length (number E nu nn l) = length l.
Proof.
  revert nu nn. induction l as [|[s d] l IH]; intros nu nn; simpl;
    [reflexivity|]. rewrite IH. reflexivity.
Qed.

(** The end of a run whose reader and accepted rows are known. *)
Lemma run_of_reader E input_file output_file delimiter cs cd ds w records l :
  open_with_fallback E input_file delimiter w = (Ok records, w) ->
  reader_rows (target_col_subj cs) (target_col_date cd) ds records = Ok l ->
  process_csv E input_file output_file delimiter cs cd ds w
  = mkWorld (uuid_calls w + length l) (now_calls w + length l)
      (log w
       ++ reader_log (target_col_subj cs) (target_col_date cd) ds records
       ++ [Info_success (length l) output_file])
      (<[output_file :=
           Text.encode_utf8
             (Text.join Text.CRLF
                (generate_ics_structure
                   (concat (map entry_lines
                                (number E (uuid_calls w) (now_calls w) l)))))]>
         (fs w)).
Proof.
  intros Hopen Hrows. unfold process_csv, process_csv_try, bind.
  rewrite Hopen.
  pose proof (read_events_spec E cs cd ds records w) as Hread.
  cbv zeta in Hread. rewrite Hrows in Hread.
  destruct (read_events E cs cd ds records w) as [r w2].
  simpl in Hread. destruct Hread as (-> & Hfs & Hlog & Hc).
  destruct (Hc l eq_refl) as [Hu Hn].
  destruct w2 as [u2 n2 l2 f2]. simpl in *. subst.
  rewrite <- app_assoc. reflexivity.
Qed.

Lemma next_row_blanks names n :
  next_row names (repeat (Fields []) n) = Raise StopIteration.
Proof. induction n as [|n IH]; simpl; [reflexivity|exact IH]. Qed.

(** X9. When the file reads as UTF-8 and holds no row, being empty or made
    of a header followed by blank lines only, the attempt on the first row
    ends in [StopIteration]: the run logs the error line and writes no
    file, not even an empty calendar. *)
Theorem no_row_under_utf8_is_an_error
  E input_file output_file delimiter cs cd ds w content :
  fs w !! input_file = Some content ->
  String.length delimiter = 1%nat ->
  (csv_records E Utf8 delimiter content = []
   \/ exists names n,
        csv_records E Utf8 delimiter content
        = Fields names :: repeat (Fields []) n) ->
  process_csv E input_file output_file delimiter cs cd ds w
  = mkWorld (uuid_calls w) (now_calls w)
            (log w ++ [Critical_error StopIteration]) (fs w).
Proof.
  intros Hf Hd Hrec.
  assert (Hfirst : first_row (csv_records E Utf8 delimiter content)
                   = Raise StopIteration).
  { destruct Hrec as [->|(names & n & ->)]; [reflexivity|].
    simpl. apply next_row_blanks. }
  unfold process_csv, process_csv_try, bind, open_with_fallback.
  rewrite (open_reader_found _ _ _ Utf8 _ _ Hf Hd), Hfirst. reflexivity.
Qed.

Lemma no_row_under_utf8_is_an_error_witness :
  fs header_only_world !! "eventos.csv" = Some header_only_bytes
  /\ process_csv header_only_env "eventos.csv" "calendario.ics" ";"
       "Assunto" "Data" "Evento Importado" header_only_world
     = mkWorld 0 0 [Critical_error StopIteration] (fs header_only_world).
Proof.
  assert (Hf : fs header_only_world !! "eventos.csv" = Some header_only_bytes)
    by (vm_compute; reflexivity).
  split; [exact Hf|].
  apply (no_row_under_utf8_is_an_error header_only_env "eventos.csv"
           "calendario.ics" ";" "Assunto" "Data" "Evento Importado"
           header_only_world header_only_bytes Hf eq_refl).
  right. exists ["Assunto"; "Data"], 0%nat. vm_compute. reflexivity.
Defined.

(** X10. When UTF-8 fails while the header or the first row is read, the
    run converts what cp1252 reads: if the loop over those records runs to
    the end with accepted rows [l], the run logs their row-level lines and
    the success line with [length l], and writes the document of their
    blocks.  No attempt on a first row is made on this path, so a cp1252
    file with a header and no row gives an empty calendar. *)
Theorem early_decoding_failure_falls_back
  E input_file output_file delimiter cs cd ds w content l :
  fs w !! input_file = Some content ->
  String.length delimiter = 1%nat ->
  first_row (csv_records E Utf8 delimiter content) = Raise UnicodeDecodeError ->
  reader_rows (target_col_subj cs) (target_col_date cd) ds
              (csv_records E Cp1252 delimiter content) = Ok l ->
  process_csv E input_file output_file delimiter cs cd ds w
  = mkWorld (uuid_calls w + length l) (now_calls w + length l)
      (log w
       ++ reader_log (target_col_subj cs) (target_col_date cd) ds
                     (csv_records E Cp1252 delimiter content)
       ++ [Info_success (length l) output_file])
      (<[output_file :=
           Text.encode_utf8
             (Text.join Text.CRLF
                (generate_ics_structure
                   (concat (map entry_lines
                                (number E (uuid_calls w) (now_calls w) l)))))]>
         (fs w)).
Proof.
  intros Hf Hd Hfirst Hrows.
  apply run_of_reader; [|exact Hrows].
  apply fallback_when_first_row_fails; assumption.
Qed.

Lemma early_decoding_failure_falls_back_witness :
  first_row (csv_records early_failure_env Utf8 ";" early_failure_bytes)
  = Raise UnicodeDecodeError
  /\ log (process_csv early_failure_env "eventos.csv" "calendario.ics" ";"
            "Assunto" ("Data" +:+ String (Text.chr 199) EmptyString)
            "Evento Importado" early_failure_world)
     = [Info_success 1 "calendario.ics"].
Proof.
  assert (Hfirst : first_row (csv_records early_failure_env Utf8 ";"
                                early_failure_bytes)
                   = Raise UnicodeDecodeError) by (vm_compute; reflexivity).
  split; [exact Hfirst|].
  rewrite (early_decoding_failure_falls_back early_failure_env "eventos.csv"
             "calendario.ics" ";" "Assunto"
             ("Data" +:+ String (Text.chr 199) EmptyString)
             "Evento Importado" early_failure_world early_failure_bytes
             [("Dentist", mkDatetime 2024 5 20 0 0 0 0)]).
  - vm_compute. reflexivity.
  - vm_compute. reflexivity.
  - reflexivity.
  - exact Hfirst.
  - vm_compute. reflexivity.
Defined.

(** ** Columns and fields *)

Lemma row_clean_from_other items : forall acc m key,
  row_clean_from items acc = Ok m ->
  (forall name x, In (Some name, x) items -> normalize name <> key) ->
  m !! key = acc !! key.
Proof.
  induction items as [|[k x0] rest IH]; intros acc m key Hrun Hno;
    simpl in Hrun.
  - injection Hrun as <-. reflexivity.
  - assert (Hno' : forall name x, In (Some name, x) rest ->
                     normalize name <> key)
      by (intros name x Hin; apply (Hno name x); right; exact Hin).
    destruct k as [[|c name]|]; simpl in Hrun.
    + exact (IH _ _ _ Hrun Hno').
    + destruct x0 as [s| |]; try discriminate.
      rewrite (IH _ _ _ Hrun Hno').
      apply lookup_insert_ne.
      apply (Hno (String c name) (VStr s)). left. reflexivity.
    + exact (IH _ _ _ Hrun Hno').
Qed.

Lemma absent_column_not_found fieldnames row key m :
  (forall name, In name fieldnames -> normalize name <> key) ->
  row_clean_of (dict_row fieldnames row) = Ok m ->
  m !! key = None.
Proof.
  intros Habsent Hm. unfold row_clean_of in Hm.
  rewrite (row_clean_from_other _ _ _ key Hm); [apply lookup_empty|].
  intros name x Hin. apply Habsent. exact (dict_row_keys _ _ _ _ Hin).
Qed.

(** X11. When no column of the header normalises to the configured subject
    name, every event of the file carries the default subject, and the row
    logs the default-subject warning. *)
Theorem absent_subject_column_gives_default
  cs td ds fieldnames row subject dt :
  (forall name, In name fieldnames -> normalize name <> target_col_subj cs) ->
  row_outcome (target_col_subj cs) td ds (dict_row fieldnames row)
  = Ok (ACCEPTED subject dt) ->
  subject = ds
  /\ row_log (target_col_subj cs) td ds (dict_row fieldnames row)
     = [Warning_default_subject ds].
Proof.
  intros Habsent. unfold row_outcome, row_log.
  destruct (row_clean_of (dict_row fieldnames row)) as [m|e] eqn:Hm;
    [|discriminate].
  rewrite (absent_column_not_found _ _ _ _ Habsent Hm).
  destruct (m !! td) as [[|c d]|]; try discriminate.
  destruct (parse_date (String c d)) as [[dt'|]|e]; try discriminate.
  intros [= <- _]. split; reflexivity.
Qed.

Lemma absent_subject_column_gives_default_witness :
  row_outcome (target_col_subj "Assunto") "data" "Evento Importado"
              (dict_row ["Titulo"; "Data"] ["Dentist"; "20/05/2024"])
  = Ok (ACCEPTED "Evento Importado" (mkDatetime 2024 5 20 0 0 0 0)).
Proof.
  assert (H : exists subject,
             row_outcome (target_col_subj "Assunto") "data" "Evento Importado"
                         (dict_row ["Titulo"; "Data"] ["Dentist"; "20/05/2024"])
             = Ok (ACCEPTED subject (mkDatetime 2024 5 20 0 0 0 0)))
    by (eexists; vm_compute; reflexivity).
  destruct H as [subject H].
  destruct (absent_subject_column_gives_default "Assunto" "data"
              "Evento Importado" ["Titulo"; "Data"] ["Dentist"; "20/05/2024"]
              subject (mkDatetime 2024 5 20 0 0 0 0)) as [Hs _].
  - intros name [<-|[<-|[]]]; vm_compute; discriminate.
  - exact H.
  - subst subject. exact H.
Defined.

Lemma absent_date_column_outcome ts cd ds fieldnames row o :
  (forall name, In name fieldnames -> normalize name <> target_col_date cd) ->
  row_outcome ts (target_col_date cd) ds (dict_row fieldnames row) = Ok o ->
  o = SKIPPED_NO_DATE.
Proof.
  intros Habsent. unfold row_outcome.
  destruct (row_clean_of (dict_row fieldnames row)) as [m|e] eqn:Hm;
    [|discriminate].
  rewrite (absent_column_not_found _ _ _ _ Habsent Hm).
  intros [= <-]. reflexivity.
Qed.

Lemma absent_date_column_rows ts cd ds fieldnames names records : forall l,
  (forall name, In name names -> normalize name <> target_col_date cd) ->
  fieldnames = names ->
  accepted_rows ts (target_col_date cd) ds fieldnames records = Ok l ->
  l = [].
Proof.
  intros l Habsent ->. revert l.
  induction records as [|[[|f row]|e] rest IH]; intros l; simpl.
  - intros [= <-]. reflexivity.
  - apply IH.
  - destruct (row_outcome ts (target_col_date cd) ds
                (dict_row names (f :: row))) as [o|e] eqn:Ho; [|discriminate].
    rewrite (absent_date_column_outcome _ _ _ _ _ _ Habsent Ho). apply IH.
  - discriminate.
Qed.

(** X12. When no column of the header normalises to the configured date
    name, a loop that runs to the end accepts no row: the progress is
    unchanged, no identifier is drawn, and every record that holds a row
    adds one skip line to the log.  A mistaken date column name thus gives
    an empty calendar, not an error. *)
Theorem absent_date_column_gives_no_event
  E cs cd ds fieldnames records p w l :
  (forall name, In name fieldnames -> normalize name <> target_col_date cd) ->
  accepted_rows (target_col_subj cs) (target_col_date cd) ds fieldnames records
  = Ok l ->
  l = []
  /\ fst (process_rows E cs cd ds fieldnames records p w) = Ok p
  /\ uuid_calls (snd (process_rows E cs cd ds fieldnames records p w))
     = uuid_calls w
  /\ count_log is_skip
       (rows_log (target_col_subj cs) (target_col_date cd) ds fieldnames
                 records)
     = data_rows records.
Proof.
  intros Habsent Hacc.
  assert (Hl : l = [])
    by exact (absent_date_column_rows _ _ _ _ _ _ _ Habsent eq_refl Hacc).
  subst l. split; [reflexivity|].
  destruct (process_rows_spec E cs cd ds fieldnames records p w)
    as (Hr & _ & _ & Hc).
  rewrite Hacc in Hr. destruct (Hc [] Hacc) as [Hu _].
  split; [rewrite Hr; simpl; rewrite app_nil_r, Nat.add_0_r;
          destruct p; reflexivity|].
  split; [rewrite Hu; simpl; lia|].
  pose proof (rows_log_accounts _ _ _ _ _ _ Hacc) as H. simpl in H. exact H.
Qed.

Lemma absent_date_column_gives_no_event_witness :
  fst (process_rows scenario_env "Assunto" "Dia" "Evento Importado"
         ["Assunto"; "Data"] (tail scenario_records) (mkProgress [] 0)
         scenario_world)
  = Ok (mkProgress [] 0)
  /\ count_log is_skip
       (rows_log "assunto" "dia" "Evento Importado" ["Assunto"; "Data"]
                 (tail scenario_records))
     = 4%nat.
Proof.
  destruct (absent_date_column_gives_no_event scenario_env "Assunto" "Dia"
              "Evento Importado" ["Assunto"; "Data"] (tail scenario_records)
              (mkProgress [] 0) scenario_world [])
    as (_ & Hr & _ & Hcount).
  - intros name [<-|[<-|[]]]; vm_compute; discriminate.
  - vm_compute. reflexivity.
  - split; [exact Hr|exact Hcount].
Defined.

Lemma combine_app_extra {A B} (l : list A) : forall (l' extra : list B),
  length l = length l' -> combine l (l' ++ extra) = combine l l'.
Proof.
  induction l as [|a l IH]; intros [|b l'] extra Hlen; simpl in *;
    try reflexivity; try lia.
  f_equal. apply IH. lia.
Qed.

Lemma row_clean_from_app_none d v : forall acc,
  row_clean_from (d ++ [(None, v)]) acc = row_clean_from d acc.
Proof.
  induction d as [|[k x] rest IH]; intros acc; simpl; [reflexivity|].
  destruct (truthy k); [|apply IH].
  destruct k as [name|]; [|reflexivity].
  destruct x; try reflexivity. apply IH.
Qed.

Lemma fold_set_field_no_none pairs :
  ~ In None (map fst (fold_left set_field pairs [])).
Proof.
  rewrite in_map_iff. intros ([k x] & Hk & Hin). simpl in Hk. subst k.
  apply fold_set_field_from in Hin as [[]|(n & f & _ & [=] & _)].
Qed.

(** X13. Fields beyond the last column of the header are ignored: a row
    with as many fields as the header, followed by any further fields, is
    cleaned to the same mapping and meets the same outcome as without
    them. *)
Theorem fields_beyond_the_header_are_ignored
  ts td ds fieldnames row extra :
  length row = length fieldnames ->
  row_clean_of (dict_row fieldnames (row ++ extra))
  = row_clean_of (dict_row fieldnames row)
  /\ row_outcome ts td ds (dict_row fieldnames (row ++ extra))
     = row_outcome ts td ds (dict_row fieldnames row).
Proof.
  intros Hlen.
  assert (Hclean : row_clean_of (dict_row fieldnames (row ++ extra))
                   = row_clean_of (dict_row fieldnames row)).
  { destruct extra as [|x extra]; [rewrite app_nil_r; reflexivity|].
    rewrite !dict_row_unfold. cbv zeta.
    rewrite combine_app_extra by (symmetry; exact Hlen).
    rewrite length_app. simpl length.
    replace (length fieldnames <? length row + S (length extra))%nat
      with true by (symmetry; apply Nat.ltb_lt; lia).
    replace (length fieldnames <? length row)%nat
      with false by (symmetry; apply Nat.ltb_ge; lia).
    replace (length row <? length fieldnames)%nat
      with false by (symmetry; apply Nat.ltb_ge; lia).
    rewrite dict_set_fresh by apply fold_set_field_no_none.
    unfold row_clean_of. apply row_clean_from_app_none. }
  split; [exact Hclean|].
  unfold row_outcome. rewrite Hclean. reflexivity.
Qed.

Lemma fields_beyond_the_header_are_ignored_witness :
  row_outcome "assunto" "data" "Evento Importado"
    (dict_row ["Assunto"; "Data"] ["Dentist"; "20/05/2024"; "x"; "y"])
  = Ok (ACCEPTED "Dentist" (mkDatetime 2024 5 20 0 0 0 0)).
Proof.
  destruct (fields_beyond_the_header_are_ignored "assunto" "data"
              "Evento Importado" ["Assunto"; "Data"]
              ["Dentist"; "20/05/2024"] ["x"; "y"] eq_refl) as [_ H].
  simpl app in H. rewrite H. vm_compute. reflexivity.
Defined.

(** ** Rows shorter than the header *)

Lemma row_clean_from_only_attribute_error items : forall acc e,
  row_clean_from items acc = Raise e -> e = AttributeError.
Proof.
  induction items as [|[k x] rest IH]; intros acc e; simpl; [discriminate|].
  destruct (truthy k); [|apply IH].
  destruct k as [name|]; [|intros [= <-]; reflexivity].
  destruct x; try (intros [= <-]; reflexivity). apply IH.
Qed.

Lemma row_clean_from_raises items name : forall acc,
  In (Some name, VNone) items -> name <> "" ->
  row_clean_from items acc = Raise AttributeError.
Proof.
  induction items as [|[k x] rest IH]; intros acc Hin Hname; simpl;
    [contradiction|].
  destruct Hin as [[= -> ->]|Hin].
  - destruct name; [contradiction|reflexivity].
  - destruct (truthy k); [|apply IH; assumption].
    destruct k as [n|]; [|reflexivity].
    destruct x; try reflexivity. apply IH; assumption.
Qed.

Lemma dict_set_keeps_none d name k :
  In (Some name, VNone) d ->
  In (Some name, VNone) (dict_set d (Some k) VNone).
Proof.
  induction d as [|[k0 v0] rest IH]; simpl; [tauto|].
  destruct (decide (k0 = Some k)) as [Heq|Hne]; simpl.
  - intros [[= Hk Hv]|Hin]; [|auto].
    left. rewrite <- Hk, <- Heq. reflexivity.
  - intros [H|Hin]; auto.
Qed.

Lemma fold_set_none_has names name : forall d,
  In name names ->
  In (Some name, VNone)
     (fold_left (fun d k => dict_set d (Some k) VNone) names d).
Proof.
  assert (Hkeep : forall l d,
            In (Some name, VNone) d ->
            In (Some name, VNone)
               (fold_left (fun d k => dict_set d (Some k) VNone) l d)).
  { induction l as [|k l IH]; intros d Hin; simpl; [exact Hin|].
    apply IH, dict_set_keeps_none, Hin. }
  induction names as [|n rest IH]; intros d; simpl; [tauto|].
  intros [->|Hin]; [|apply IH, Hin].
  apply Hkeep, dict_set_in.
Qed.

Lemma dict_set_cleanable d k v :
  Forall cleanable d -> cleanable (k, v) -> Forall cleanable (dict_set d k v).
Proof.
  intros Hd Hkv. induction Hd as [|[k0 v0] rest H0 Hrest IH]; simpl.
  - constructor; [exact Hkv|constructor].
  - destruct (decide (k0 = k)); constructor; assumption.
Qed.

Lemma stringly_cleanable kv : stringly kv -> cleanable kv.
Proof.
  destruct kv as [[name|] v]; simpl; [|left; reflexivity].
  destruct v; try contradiction. right. eauto.
Qed.

Lemma row_clean_from_cleanable items : forall acc,
  Forall cleanable items -> exists m, row_clean_from items acc = Ok m.
Proof.
  induction items as [|[k v] rest IH]; intros acc Hs; simpl; [eauto|].
  apply Forall_cons in Hs as [Hkv Hrest].
  destruct (truthy k) eqn:Hk; [|apply IH; exact Hrest].
  destruct Hkv as [Hf|[s Hv]]; simpl in *; [congruence|]. subst v.
  destruct k as [name|]; [|discriminate]. apply IH; exact Hrest.
Qed.

Lemma dict_row_cleanable fieldnames row :
  Forall (fun name => name = "") (skipn (length row) fieldnames) ->
  Forall cleanable (dict_row fieldnames row).
Proof.
  intros Hblank. rewrite dict_row_unfold. cbv zeta.
  assert (Hd : Forall cleanable
                 (fold_left set_field (combine fieldnames row) [])).
  { eapply Forall_impl; [apply fold_set_field_stringly; constructor|].
    intros kv. apply stringly_cleanable. }
  destruct (length fieldnames <? length row)%nat.
  - apply dict_set_cleanable; [exact Hd|left; reflexivity].
  - destruct (length row <? length fieldnames)%nat; [|exact Hd].
    revert Hd. generalize (fold_left set_field (combine fieldnames row) []).
    induction Hblank as [|n rest Hn Hrest IH]; intros d Hd; simpl;
      [exact Hd|].
    apply IH, dict_set_cleanable; [exact Hd|]. subst n. left. reflexivity.
Qed.

(** X14. Cleaning a row raises exactly when the record is too short to
    reach a column whose header name is not empty, and then the exception
    is [AttributeError]: the row as a whole has no outcome.  A missing
    column with an empty header name does no harm. *)
Theorem short_row_raises_exactly ts td ds fieldnames row :
  (row_outcome ts td ds (dict_row fieldnames row) = Raise AttributeError
   <-> exists name,
         In name (skipn (length row) fieldnames) /\ name <> "")
  /\ (forall e,
        row_outcome ts td ds (dict_row fieldnames row) = Raise e ->
        e = AttributeError).
Proof.
  assert (Hout : forall e,
            row_outcome ts td ds (dict_row fieldnames row) = Raise e ->
            row_clean_of (dict_row fieldnames row) = Raise e).
  { intros e. unfold row_outcome.
    destruct (row_clean_of (dict_row fieldnames row)) as [m|e'];
      [|intros [= <-]; reflexivity].
    destruct (m !! td) as [[|c d]|]; try discriminate.
    destruct (parse_date (String c d)) as [[dt|]|e'] eqn:Hp; try discriminate.
    destruct (parse_date_never_raises _ _ Hp). }
  split; [split|].
  - intros Hraise. apply Hout in Hraise.
    destruct (decide (Forall (fun name => name = "")
                             (skipn (length row) fieldnames)))
      as [Hblank|Hsome].
    + destruct (row_clean_from_cleanable _ ∅ (dict_row_cleanable _ _ Hblank))
        as [m Hm].
      unfold row_clean_of in Hraise. congruence.
    + apply not_Forall_Exists in Hsome; [|intros x; apply _].
      apply Exists_exists in Hsome as (name & Hin & Hne).
      exists name. split; [apply list_elem_of_In, Hin|exact Hne].
  - intros (name & Hin & Hne).
    assert (Hshort : (length row < length fieldnames)%nat).
    { destruct (Nat.lt_ge_cases (length row) (length fieldnames))
        as [|Hge]; [assumption|].
      rewrite skipn_all2 in Hin by exact Hge. contradiction. }
    assert (Hitem : In (Some name, VNone) (dict_row fieldnames row)).
    { rewrite dict_row_unfold. cbv zeta.
      replace (length fieldnames <? length row)%nat
        with false by (symmetry; apply Nat.ltb_ge; lia).
      replace (length row <? length fieldnames)%nat
        with true by (symmetry; apply Nat.ltb_lt; lia).
      apply fold_set_none_has, Hin. }
    unfold row_outcome, row_clean_of.
    rewrite (row_clean_from_raises _ _ ∅ Hitem Hne). reflexivity.
  - intros e He. apply Hout in He.
    exact (row_clean_from_only_attribute_error _ _ _ He).
Qed.

Lemma short_row_raises_exactly_witness :
  row_outcome "assunto" "data" "Evento Importado"
              (dict_row ["Data"; "Assunto"] ["20/05/2024"])
  = Raise AttributeError
  /\ exists o,
       row_outcome "assunto" "data" "Evento Importado"
                   (dict_row ["Data"; ""] ["20/05/2024"]) = Ok o.
Proof.
  split.
  - apply (proj1 (short_row_raises_exactly "assunto" "data"
                    "Evento Importado" ["Data"; "Assunto"] ["20/05/2024"])).
    exists "Assunto". split; [simpl; auto|discriminate].
  - eexists. vm_compute. reflexivity.
Defined.

(** ** The date cell *)

(** The cleaned value of a column whose normalised name is unique. *)
Lemma cleaned_field fieldnames row name field :
  (length fieldnames <= length row)%nat ->
  NoDup (map normalize fieldnames) ->
  In (name, field) (combine fieldnames row) ->
  name <> "" ->
  exists m,
    row_clean_of (dict_row fieldnames row) = Ok m
    /\ m !! normalize name = Some (Text.strip field).
Proof.
  intros Hlen Hnodup Hin Hname.
  destruct (dict_row_long_enough fieldnames row Hlen) as [Hstr Hkeys].
  destruct (row_clean_from_ok (dict_row fieldnames row) ∅ Hstr) as [m Hm].
  exists m. split; [exact Hm|].
  assert (Hitem : exists x, In (Some name, x) (dict_row fieldnames row)).
  { specialize (Hkeys name field Hin). apply in_map_iff in Hkeys.
    destruct Hkeys as ([k x] & Hk & Hx). simpl in Hk. subst k. eauto. }
  destruct Hitem as [x Hx].
  apply (row_clean_from_exact _ field _ _ _ Hm).
  - intros name' x' Hin' Hne' Hkey'.
    destruct (dict_row_distinct _ _ _ _ Hlen Hnodup Hin')
      as (field' & Hc' & ->).
    f_equal.
    exact (combine_unique normalize fieldnames row name' field' name field
             Hnodup Hc' Hin Hkey').
  - right. exists name.
    destruct (dict_row_distinct _ _ _ _ Hlen Hnodup Hx) as (field' & Hc' & ->).
    assert (field' = field)
      by exact (combine_unique normalize fieldnames row name field' name field
                  Hnodup Hc' Hin eq_refl).
    subst field'. auto.
Qed.

(** X15. The date cell is trimmed before it is interpreted.  For a row at
    least as long as a header whose names stay distinct once normalised,
    with [field] the cell under the date column: the row is skipped for want
    of a date exactly when the cell is empty or whitespace; otherwise the
    trimmed cell goes to [parse_date], whose answer decides between an
    accepted row on that date and a row skipped for an invalid date. *)
Theorem date_cell_is_trimmed ts cd ds fieldnames row name field :
  (length fieldnames <= length row)%nat ->
  NoDup (map normalize fieldnames) ->
  In (name, field) (combine fieldnames row) ->
  name <> "" ->
  normalize name = target_col_date cd ->
  exists o,
    row_outcome ts (target_col_date cd) ds (dict_row fieldnames row) = Ok o
    /\ match Text.strip field with
       | EmptyString => o = SKIPPED_NO_DATE
       | String c s =>
           match parse_date (String c s) with
           | Ok (Some dt) => exists subject, o = ACCEPTED subject dt
           | _ => o = SKIPPED_INVALID_DATE
           end
       end.
Proof.
  intros Hlen Hnodup Hin Hname Htarget.
  destruct (cleaned_field _ _ _ _ Hlen Hnodup Hin Hname) as (m & Hm & Hv).
  rewrite Htarget in Hv. unfold row_outcome. rewrite Hm, Hv.
  destruct (Text.strip field) as [|c s]; [eauto|].
  destruct (parse_date (String c s)) as [[dt|]|e] eqn:Hp; eauto.
  destruct (parse_date_never_raises _ _ Hp).
Qed.

Lemma date_cell_is_trimmed_witness :
  parse_date "  20/05/2024 " = Ok None
  /\ exists subject,
       row_outcome "assunto" (target_col_date "Data") "Evento Importado"
                   (dict_row ["Assunto"; " DATA "] ["Dentist"; "  20/05/2024 "])
       = Ok (ACCEPTED subject (mkDatetime 2024 5 20 0 0 0 0)).
Proof.
  split; [vm_compute; reflexivity|].
  destruct (date_cell_is_trimmed "assunto" "Data" "Evento Importado"
              ["Assunto"; " DATA "] ["Dentist"; "  20/05/2024 "]
              " DATA " "  20/05/2024 ") as (o & Ho & Hcase).
  - simpl. lia.
  - apply (bool_decide_unpack _). vm_compute. exact I.
  - simpl. auto.
  - discriminate.
  - vm_compute. reflexivity.
  - change (Text.strip "  20/05/2024 ") with "20/05/2024" in Hcase.
    change (parse_date "20/05/2024")
      with (Ok (Some (mkDatetime 2024 5 20 0 0 0 0))) in Hcase.
    destruct Hcase as [subject ->]. exists subject. exact Ho.
Defined.

(** ** The text written *)

Lemma digit_char_not_LF k : Ascii.eqb Text.LF (Text.digit_char k) = false.
Proof.
  destruct (Ascii.eqb Text.LF (Text.digit_char k)) eqn:H; [|reflexivity].
  apply Ascii.eqb_eq in H. apply (f_equal Text.code) in H.
  rewrite digit_char_code in H. change (Text.code Text.LF) with 10 in H.
  pose proof (Z.mod_pos_bound k 10). lia.
Qed.

Lemma format_ics_date_no_LF dt :
  Text.count_char Text.LF (format_ics_date dt) = 0%nat.
Proof.
  rewrite format_ics_date_chars. cbn [Text.count_char].
  rewrite !digit_char_not_LF. reflexivity.
Qed.

Lemma entry_lines_line_feeds en :
  sum_list (map (Text.count_char Text.LF) (entry_lines en))
  = (Text.count_char Text.LF (e_subject en)
     + Text.count_char Text.LF (e_uid en))%nat.
Proof.
  unfold entry_lines, event_lines. cbn [map sum_list sum_list_with].
  rewrite !count_char_append, !format_ics_date_no_LF.
  change (Text.count_char Text.LF "UID:") with 0%nat.
  change (Text.count_char Text.LF "SUMMARY:") with 0%nat.
  change (Text.count_char Text.LF "DTSTAMP:") with 0%nat.
  change (Text.count_char Text.LF "DTSTART;TZID=America/Sao_Paulo:")
    with 0%nat.
  change (Text.count_char Text.LF "DTEND;TZID=America/Sao_Paulo:")
    with 0%nat.
  change (Text.count_char Text.LF "BEGIN:VEVENT") with 0%nat.
  change (Text.count_char Text.LF "STATUS:CONFIRMED") with 0%nat.
  change (Text.count_char Text.LF "CLASS:PUBLIC") with 0%nat.
  change (Text.count_char Text.LF "BEGIN:VALARM") with 0%nat.
  change (Text.count_char Text.LF "ACTION:DISPLAY") with 0%nat.
  change (Text.count_char Text.LF "TRIGGER;RELATED=START:-PT15M") with 0%nat.
  change (Text.count_char Text.LF
            "DESCRIPTION:Lembrete gerado via script CSV") with 0%nat.
  change (Text.count_char Text.LF "END:VALARM") with 0%nat.
  change (Text.count_char Text.LF "END:VEVENT") with 0%nat.
  unfold id. lia.
Qed.

Lemma blocks_line_feeds entries :
  sum_list (map (Text.count_char Text.LF) (concat (map entry_lines entries)))
  = entry_line_feeds entries.
Proof.
  unfold entry_line_feeds.
  induction entries as [|en rest IH]; [reflexivity|].
  cbn [map concat]. rewrite map_app, sum_list_with_app, IH, entry_lines_line_feeds.
  reflexivity.
Qed.

(** X16. The text written for a document of built entries has exactly one
    physical line per line of the document, 15 plus 14 per entry, plus one
    per line feed found in the subjects and identifiers: when these hold no
    line feed, each property stands on a line of its own. *)
Theorem written_text_line_count entries :
  physical_lines
    (Text.join Text.CRLF
       (generate_ics_structure (concat (map entry_lines entries))))
  = (15 + 14 * length entries + entry_line_feeds entries)%nat.
Proof.
  unfold physical_lines, generate_ics_structure.
  change (header ++ concat (map entry_lines entries) ++ ["END:VCALENDAR"])
    with ("BEGIN:VCALENDAR"
          :: (tail header ++ concat (map entry_lines entries)
              ++ ["END:VCALENDAR"])).
  rewrite join_line_feeds.
  change ("BEGIN:VCALENDAR"
          :: (tail header ++ concat (map entry_lines entries)
              ++ ["END:VCALENDAR"]))
    with (header ++ concat (map entry_lines entries) ++ ["END:VCALENDAR"]).
  rewrite !map_app, !sum_list_with_app, blocks_line_feeds.
  rewrite !length_app, blocks_length.
  change (sum_list (map (Text.count_char Text.LF) header)) with 0%nat.
  change (sum_list (map (Text.count_char Text.LF) ["END:VCALENDAR"]))
    with 0%nat.
  simpl length. lia.
Qed.

Lemma join_snoc sep line lines last :
  Text.join sep ((line :: lines) ++ [last])
  = Text.join sep (line :: lines) +:+ sep +:+ last.
Proof.
  revert line. induction lines as [|l rest IH]; intros line;
    [reflexivity|].
  change (Text.join sep ((line :: l :: rest) ++ [last]))
    with (line +:+ sep +:+ Text.join sep ((l :: rest) ++ [last])).
  rewrite IH.
  change (Text.join sep (line :: l :: rest))
    with (line +:+ sep +:+ Text.join sep (l :: rest)).
  rewrite !append_assoc. reflexivity.
Qed.

(** X17. Whatever lines the assembler is given, the text written opens
    with BEGIN:VCALENDAR and a CR LF, and closes with END:VCALENDAR after a
    CR LF, with no line break behind it. *)
Theorem written_text_envelope events_content :
  Text.join Text.CRLF (generate_ics_structure events_content)
  = Text.join Text.CRLF (header ++ events_content)
    +:+ Text.CRLF +:+ "END:VCALENDAR"
  /\ exists body,
       Text.join Text.CRLF (generate_ics_structure events_content)
       = "BEGIN:VCALENDAR" +:+ Text.CRLF +:+ body +:+ Text.CRLF
         +:+ "END:VCALENDAR".
Proof.
  assert (H : Text.join Text.CRLF (generate_ics_structure events_content)
              = Text.join Text.CRLF (header ++ events_content)
                +:+ Text.CRLF +:+ "END:VCALENDAR").
  { unfold generate_ics_structure. rewrite app_assoc.
    change (header ++ events_content)
      with ("BEGIN:VCALENDAR" :: (tail header ++ events_content)).
    apply join_snoc. }
  split; [exact H|].
  exists (Text.join Text.CRLF (tail header ++ events_content)).
  rewrite H.
  change (Text.join Text.CRLF (header ++ events_content))
    with ("BEGIN:VCALENDAR" +:+ Text.CRLF
          +:+ Text.join Text.CRLF (tail header ++ events_content)).
  rewrite !append_assoc. reflexivity.
Qed.

(** X18. A run changes no file but the output file: every other path of
    the file system, the input file included when it is not the output,
    holds after the run what it held before. *)
Theorem run_touches_only_the_output
  E input_file output_file delimiter cs cd ds w path :
  path <> output_file ->
  fs (process_csv E input_file output_file delimiter cs cd ds w) !! path
  = fs w !! path.
Proof.
  intros Hpath. unfold process_csv, process_csv_try, bind.
  pose proof (open_with_fallback_world E input_file delimiter w) as Hopen.
  destruct (open_with_fallback E input_file delimiter w) as [[records|e] w1];
    simpl in Hopen; subst w1.
  - pose proof (read_events_fs E cs cd ds records w) as Hread.
    destruct (read_events E cs cd ds records w) as [[p|e] w2];
      simpl in Hread.
    + simpl. rewrite Hread. apply lookup_insert_ne. congruence.
    + destruct e; simpl; rewrite Hread; reflexivity.
  - destruct e; reflexivity.
Qed.

Lemma run_touches_only_the_output_witness :
  fs (process_csv scenario_env "eventos.csv" "calendario.ics" ";"
        "Assunto" "Data" "Evento Importado" scenario_world) !! "eventos.csv"
  = Some scenario_bytes.
Proof.
  rewrite (run_touches_only_the_output scenario_env "eventos.csv"
             "calendario.ics" ";" "Assunto" "Data" "Evento Importado"
             scenario_world "eventos.csv").
  - vm_compute. reflexivity.
  - discriminate.
Defined.

(** X19. The subject cell is trimmed too.  For a row at least as long as a
    header whose names stay distinct once normalised, with [field] the cell
    under the subject column: an accepted row carries the trimmed cell as
    its subject, or the default subject when the cell is empty or
    whitespace. *)
Theorem subject_cell_is_trimmed cs td ds fieldnames row name field subject dt :
  (length fieldnames <= length row)%nat ->
  NoDup (map normalize fieldnames) ->
  In (name, field) (combine fieldnames row) ->
  name <> "" ->
  normalize name = target_col_subj cs ->
  row_outcome (target_col_subj cs) td ds (dict_row fieldnames row)
  = Ok (ACCEPTED subject dt) ->
  subject = match Text.strip field with
            | EmptyString => ds
            | String c s => String c s
            end.
Proof.
  intros Hlen Hnodup Hin Hname Htarget.
  destruct (cleaned_field _ _ _ _ Hlen Hnodup Hin Hname) as (m & Hm & Hv).
  rewrite Htarget in Hv. unfold row_outcome. rewrite Hm, Hv.
  destruct (m !! td) as [[|c d]|]; try discriminate.
  destruct (parse_date (String c d)) as [[dt'|]|e]; try discriminate.
  intros [= <- _]. destruct (Text.strip field); reflexivity.
Qed.

Lemma subject_cell_is_trimmed_witness :
  row_outcome (target_col_subj "Assunto") "data" "Evento Importado"
              (dict_row ["Assunto"; "Data"] ["  Dentist "; "20/05/2024"])
  = Ok (ACCEPTED "Dentist" (mkDatetime 2024 5 20 0 0 0 0)).
Proof.
  assert (H : exists subject,
             row_outcome (target_col_subj "Assunto") "data" "Evento Importado"
               (dict_row ["Assunto"; "Data"] ["  Dentist "; "20/05/2024"])
             = Ok (ACCEPTED subject (mkDatetime 2024 5 20 0 0 0 0)))
    by (eexists; vm_compute; reflexivity).
  destruct H as [subject H].
  pose proof (subject_cell_is_trimmed "Assunto" "data" "Evento Importado"
                ["Assunto"; "Data"] ["  Dentist "; "20/05/2024"]
                "Assunto" "  Dentist " subject
                (mkDatetime 2024 5 20 0 0 0 0)) as Hs.
  assert (Hsub : subject = "Dentist").
  { apply Hs.
    - simpl. lia.
    - apply (bool_decide_unpack _). vm_compute. exact I.
    - simpl. auto.
    - discriminate.
    - vm_compute. reflexivity.
    - exact H. }
  subst subject. exact H.
Defined.

(** ** The identifiers of the events *)

(** X20.  Each call of the builder draws the next identifier of the
    generator, whatever the subject and the date: the identifier line of
    the block is [UID:] followed by that draw, and the counter of draws
    advances by one.  In a run, the k-th accepted row carries the k-th
    identifier drawn since the start of the loop, so the identifier lines
    of the events are pairwise distinct exactly when the generator did not
    repeat itself over these draws; the subjects and the dates of the rows
    play no part. *)
Theorem event_identifiers_follow_the_generator
  E cs cd ds fieldnames records p w l :
  accepted_rows (target_col_subj cs) (target_col_date cd) ds fieldnames records
  = Ok l ->
  (forall subject dt,
     well_formed dt ->
     exists block,
       generate_event_block E subject dt w
       = (Ok block, mkWorld (S (uuid_calls w)) (S (now_calls w))
                            (log w) (fs w))
       /\ block !! 1%nat = Some ("UID:" +:+ uuid_at E (uuid_calls w)))
  /\ exists entries,
       fst (process_rows E cs cd ds fieldnames records p w)
       = Ok (mkProgress (ics_events p ++ concat (map entry_lines entries))
                        (processed_count p + length l))
       /\ map (fun en => (e_subject en, e_date en)) entries = l
       /\ map e_uid entries
          = map (uuid_at E) (seq (uuid_calls w) (length l))
       /\ Forall (fun en => entry_lines en !! 1%nat
                            = Some ("UID:" +:+ e_uid en)) entries
       /\ (NoDup (map (fun en => "UID:" +:+ e_uid en) entries)
           <-> NoDup (map (uuid_at E) (seq (uuid_calls w) (length l)))).
Proof.
  intros Hacc. split.
  - intros subject dt Hdt.
    eexists.
    rewrite (generate_event_block_well_formed _ _ _ _ Hdt).
    split; reflexivity.
  - exists (number E (uuid_calls w) (now_calls w) l).
    destruct (process_rows_spec E cs cd ds fieldnames records p w)
      as (Hr & _).
    rewrite Hacc in Hr.
    split; [exact Hr|].
    split; [apply number_rows|].
    split; [apply number_uids|].
    split; [apply Forall_forall; intros; reflexivity|].
    rewrite <- (map_map e_uid (fun u => "UID:" +:+ u)), number_uids.
    split; [apply NoDup_fmap_1|apply NoDup_uid_lines].
Qed.

(** Two rows with the same subject and the same date, and a generator that
    does not repeat itself. *)
Lemma event_identifiers_follow_the_generator_witness :
  exists entries,
    fst (process_rows scenario_env "Assunto" "Data" "Evento Importado"
           ["Assunto"; "Data"]
           [Fields ["Dentist"; "20/05/2024"]; Fields ["Dentist"; "20/05/2024"]]
           (mkProgress [] 0) scenario_world)
    = Ok (mkProgress (concat (map entry_lines entries)) 2)
    /\ map (fun en => (e_subject en, e_date en)) entries
       = [ ("Dentist", mkDatetime 2024 5 20 0 0 0 0);
           ("Dentist", mkDatetime 2024 5 20 0 0 0 0) ]
    /\ map e_uid entries = [sample_uuid 0; sample_uuid 1]
    /\ NoDup (map (fun en => "UID:" +:+ e_uid en) entries).
Proof.
  destruct (event_identifiers_follow_the_generator scenario_env
              "Assunto" "Data" "Evento Importado" ["Assunto"; "Data"]
              [Fields ["Dentist"; "20/05/2024"];
               Fields ["Dentist"; "20/05/2024"]]
              (mkProgress [] 0) scenario_world
              [ ("Dentist", mkDatetime 2024 5 20 0 0 0 0);
                ("Dentist", mkDatetime 2024 5 20 0 0 0 0) ])
    as (_ & entries & Hr & Hrows & Huids & _ & Hnodup).
  - vm_compute. reflexivity.
  - exists entries. split; [exact Hr|]. split; [exact Hrows|].
    split; [exact Huids|].
    apply Hnodup. apply (bool_decide_unpack _). vm_compute. exact I.
Defined.

(** With a generator that returns the same identifier at every draw, two
    accepted rows carry the same identifier line: the script adds nothing
    of its own to the draw. *)
Lemma stuck_generator_repeats_the_identifier :
  exists entries,
    fst (process_rows stuck_uuid_env "Assunto" "Data" "Evento Importado"
           ["Assunto"; "Data"]
           [Fields ["Dentist"; "20/05/2024"]; Fields ["Checkup"; "21/05/2024"]]
           (mkProgress [] 0) scenario_world)
    = Ok (mkProgress (concat (map entry_lines entries)) 2)
    /\ map e_subject entries = ["Dentist"; "Checkup"]
    /\ map (fun en => entry_lines en !! 1%nat) entries
       = [ Some ("UID:" +:+ sample_uuid 0); Some ("UID:" +:+ sample_uuid 0) ].
Proof.
  exists (number stuck_uuid_env 0 0
            [ ("Dentist", mkDatetime 2024 5 20 0 0 0 0);
              ("Checkup", mkDatetime 2024 5 21 0 0 0 0) ]).
  split; [vm_compute; reflexivity|].
  split; vm_compute; reflexivity.
Qed.
